(** * picanha-prices: a model of [main.py] and the properties of its pipeline

    The program is a linear batch pipeline: fetch product listings
    ([scrape_prices]), append them to a CSV ledger ([step_1]), regroup the
    ledger per product ([step_2]), draw one chart per name filter
    ([plot_graph]) and write an HTML gallery ([create_html_for_png_files]).

    The model is a shallow embedding.  Python values are Rocq values, the
    files the program touches are fields of a record that is passed along,
    what the network answers is an argument, and an exception is a result
    of its own.  The library calls of the source ([str.strip], [float],
    [drop_duplicates], [groupby], ...) are defined one by one, under the
    name they have in the source. *)

From Stdlib Require Import ZArith NArith List Bool Lia.
From Stdlib Require Import Strings.String Strings.Ascii.
From Stdlib Require Import Decimal DecimalFacts DecimalPos DecimalN.
From Stdlib Require Import Sorting.Sorted Sorting.Permutation.
From stdpp Require Import base list.

(** ** Python strings

    A Python [str] is a sequence of Unicode code points. *)

Definition str := list N.

(** [py "abc"] is the [str] of an ASCII literal. *)
Fixpoint py (s : string) : str :=
  match s with
  | EmptyString => []
  | String c s' => N_of_ascii c :: py s'
  end.

Definition dquote : str := [34%N].
Definition newline : str := [10%N].

(** [a in chars], for one code point. *)
Definition char_in (chars : str) (c : N) : bool :=
  existsb (N.eqb c) chars.

(** [str.isspace] on one code point: the code points CPython's
    [Py_UNICODE_ISSPACE] accepts. *)
Definition isspace (c : N) : bool :=
  ((9 <=? c) && (c <=? 13) || (28 <=? c) && (c <=? 32)
   || (c =? 133) || (c =? 160) || (c =? 5760)
   || (8192 <=? c) && (c <=? 8202)
   || (c =? 8232) || (c =? 8233) || (c =? 8239) || (c =? 8287)
   || (c =? 12288))%N.

Fixpoint lstrip_by (drop : N -> bool) (s : str) : str :=
  match s with
  | [] => []
  | c :: t => if drop c then lstrip_by drop t else s
  end.

Fixpoint rstrip_by (drop : N -> bool) (s : str) : str :=
  match s with
  | [] => []
  | c :: t =>
      match rstrip_by drop t with
      | [] => if drop c then [] else [c]
      | t' => c :: t'
      end
  end.

Definition strip_by (drop : N -> bool) (s : str) : str :=
  rstrip_by drop (lstrip_by drop s).

(** [s.strip()] *)
Definition strip (s : str) : str := strip_by isspace s.

(** [s.strip(chars)] *)
Definition strip_chars (chars : str) (s : str) : str :=
  strip_by (char_in chars) s.

(** [s.replace(old, new)] for a one-character [old]. *)
Fixpoint replace (old : N) (new : str) (s : str) : str :=
  match s with
  | [] => []
  | c :: t => if (c =? old)%N then new ++ replace old new t
              else c :: replace old new t
  end.

(** [s.split(sep)] for a one-character [sep]: never empty, [''.split(',')]
    is [['']]. *)
Fixpoint split (sep : N) (s : str) : list str :=
  match s with
  | [] => [[]]
  | c :: t =>
      if (c =? sep)%N then [] :: split sep t
      else match split sep t with
           | piece :: pieces => (c :: piece) :: pieces
           | [] => [[c]]
           end
  end.

(** [sep.join(pieces)] *)
Fixpoint join (sep : str) (pieces : list str) : str :=
  match pieces with
  | [] => []
  | [p] => p
  | p :: rest => p ++ sep ++ join sep rest
  end.

(** [s.startswith(prefix)] *)
Fixpoint startswith (s prefix : str) {struct prefix} : bool :=
  match prefix, s with
  | [], _ => true
  | _ :: _, [] => false
  | p :: prefix', c :: s' => (c =? p)%N && startswith s' prefix'
  end.

(** [s.endswith(suffix)] *)
Definition endswith (s suffix : str) : bool :=
  startswith (rev s) (rev suffix).

(** [sub in s] *)
Fixpoint contains (sub s : str) : bool :=
  startswith s sub ||
  match s with
  | [] => false
  | _ :: t => contains sub t
  end.

(** [a <= b]: Python compares strings code point by code point. *)
Fixpoint str_le (a b : str) : bool :=
  match a, b with
  | [], _ => true
  | _ :: _, [] => false
  | x :: a', y :: b' => (x <? y)%N || (x =? y)%N && str_le a' b'
  end.

(** ** Printing integers: [str(n)] *)

Fixpoint uint_codes (d : Decimal.uint) : str :=
  match d with
  | Nil => []
  | D0 d => 48%N :: uint_codes d
  | D1 d => 49%N :: uint_codes d
  | D2 d => 50%N :: uint_codes d
  | D3 d => 51%N :: uint_codes d
  | D4 d => 52%N :: uint_codes d
  | D5 d => 53%N :: uint_codes d
  | D6 d => 54%N :: uint_codes d
  | D7 d => 55%N :: uint_codes d
  | D8 d => 56%N :: uint_codes d
  | D9 d => 57%N :: uint_codes d
  end.

Definition repr_N (n : N) : str := uint_codes (N.to_uint n).

Definition repr_Z (z : Z) : str :=
  match z with
  | Zneg p => 45%N :: repr_N (Npos p)
  | _ => repr_N (Z.to_N z)
  end.

(** ** Printing strings: [repr(s)]

    The [repr] of a string of ASCII characters: between single quotes, or
    between double quotes when it has a single quote and no double quote
    in it; the quote and the backslash after a backslash, the tab, the
    newline and the return as [\t], [\n], [\r], the other control
    characters as [\x] and two hexadecimal digits. *)
Definition hex_digit (n : N) : N := (if n <? 10 then 48 + n else 87 + n)%N.

Definition repr_char (q c : N) : str :=
  if ((c =? 92) || (c =? q))%N then [92%N; c]
  else if (c =? 9)%N then [92; 116]%N
  else if (c =? 10)%N then [92; 110]%N
  else if (c =? 13)%N then [92; 114]%N
  else if ((c <? 32) || (c =? 127))%N then [92; 120; hex_digit (c / 16); hex_digit (c mod 16)]%N
  else [c].

Definition repr_ascii (s : str) : str :=
  let q := if existsb (fun c => c =? 39)%N s && negb (existsb (fun c => c =? 34)%N s)
           then 34%N else 39%N in
  q :: flat_map (repr_char q) s ++ [q].

(** ** Reading digits *)

Definition is_digit (c : N) : bool := ((48 <=? c) && (c <=? 57))%N.

(** The digits at the head of [s]: the number they add to [acc], how many
    they are, and what follows them. *)
Fixpoint span_digits (s : str) (acc : N) (count : nat) : N * nat * str :=
  match s with
  | c :: t => if is_digit c then span_digits t (10 * acc + (c - 48))%N (S count)
              else (acc, count, s)
  | [] => (acc, count, [])
  end.

(** ** Results of a call

    A call returns, raises, or leaves the part of the libraries this
    development interprets ([Uninterpreted]: a regular expression with
    operators, a numeral written with non-ASCII digits). *)

Inductive request_error :=
| ConnectionError | Timeout | TooManyRedirects | InvalidURL | HTTPError.

Inductive exn :=
| RequestException (kind : request_error) (msg : str)
| AttributeError (msg : str)
| ValueError (msg : str)
| OtherError (msg : str).

Inductive outcome (A : Type) :=
| Ok (a : A)
| Raise (e : exn)
| Uninterpreted.
Arguments Ok {A} a.
Arguments Raise {A} e.
Arguments Uninterpreted {A}.

Global Instance outcome_ret : MRet outcome := fun A a => Ok a.
Global Instance outcome_bind : MBind outcome := fun A B k m =>
  match m with
  | Ok a => k a
  | Raise e => Raise e
  | Uninterpreted => Uninterpreted
  end.

(** A [for] loop that appends one result per item and stops at the first
    item that raises. *)
Fixpoint for_each {A B} (f : A -> outcome B) (l : list A) : outcome (list B) :=
  match l with
  | [] => Ok []
  | a :: rest => b ← f a; bs ← for_each f rest; Ok (b :: bs)
  end.

(** ** The fetcher: [scrape_prices]

    What [requests.get(url)] does is an argument of the model: it raises,
    or it returns a response.  The response body is kept as BeautifulSoup
    sees it: the [div]s of class [MuiBox-root css-1p9qlrd] that [find_all]
    returns, in document order, each with what its three [find] calls
    return ([None], or an element with its text). *)

Record container := {
  name_div : option str;    (* product.find('div', class_='MuiBox-root css-r0hfyj') *)
  price_p : option str;     (* product.find('p', class_='... css-ez05by') *)
  brand_div : option str    (* product.find('div', class_='MuiBox-root css-1rtv77d') *)
}.

Record response := {
  status_code : Z;
  reason : str;
  resp_url : str;
  products : list container
}.

Inductive http_result :=
| GetRaises (e : exn)
| GetReturns (r : response).

Definition requests_get (net : http_result) : outcome response :=
  match net with
  | GetRaises e => Raise e
  | GetReturns r => Ok r
  end.

(** [Response.raise_for_status] of the requests library: an [HTTPError] for
    the client-error and server-error statuses, nothing for any other. *)
Definition raise_for_status (r : response) : outcome unit :=
  if ((400 <=? status_code r) && (status_code r <? 500))%Z then
    Raise (RequestException HTTPError
             (repr_Z (status_code r) ++ py " Client Error: " ++ reason r
              ++ py " for url: " ++ resp_url r))
  else if ((500 <=? status_code r) && (status_code r <? 600))%Z then
    Raise (RequestException HTTPError
             (repr_Z (status_code r) ++ py " Server Error: " ++ reason r
              ++ py " for url: " ++ resp_url r))
  else Ok tt.

(** [element.text], where [element] may be [None]. *)
Definition text (element : option str) : outcome str :=
  match element with
  | Some t => Ok t
  | None => Raise (AttributeError (py "'NoneType' object has no attribute 'text'"))
  end.

(** One fetched row, [[name, price, brand]]. *)
Record product := { p_name : str; p_price : str; p_brand : str }.

(** The body of the loop over the containers. *)
Definition scrape_product (c : container) : outcome product :=
  name_text ← text (name_div c);
  price_text ← text (price_p c);
  let price := replace 44 [] (strip price_text) in
  brand_text ← text (brand_div c);
  Ok {| p_name := strip name_text; p_price := price; p_brand := strip brand_text |}.

(** The log file, one record per [logging] call. *)
Inductive level := INFO | WARNING | ERROR.
Record log_record := { levelname : level; message : str }.

(** The [try] block of [scrape_prices]. *)
Definition scrape_prices_try (net : http_result) : outcome (list product) :=
  r ← requests_get net;
  _ ← raise_for_status r;
  for_each scrape_product (products r).

(** [scrape_prices(url)]: the result of the call and the log after it.  The
    handler catches [requests.exceptions.RequestException] only. *)
Definition scrape_prices (url : str) (net : http_result) (log : list log_record)
  : outcome (list product) * list log_record :=
  match scrape_prices_try net with
  | Raise (RequestException kind msg) =>
      (Ok [], log ++ [{| levelname := ERROR;
                         message := py "Error scraping " ++ url ++ py ": " ++ msg |}])
  | result => (result, log)
  end.

(** ** The ledger writer: [step_1] *)

(** A row of a table with the columns Name, Price, Brand, Date.  The cells
    are strings, but for the prices of a table read back from a file,
    which pandas types. *)
Record row (P : Type) := { Name : str; Price : P; Brand : str; Date : str }.
Arguments Name {P} r.
Arguments Price {P} r.
Arguments Brand {P} r.
Arguments Date {P} r.

Global Instance row_eq_dec : EqDecision (row str).
Proof. solve_decision. Defined.

(** [data + [today]] *)
Definition with_date (today : str) (data : product) : row str :=
  {| Name := p_name data; Price := p_price data; Brand := p_brand data;
     Date := today |}.

(** One turn of the loop over the URLs: the URL, what the network did with
    it, and what [datetime.now().strftime('%Y-%m-%d')] gave after it. *)
Record visit := { v_url : str; v_net : http_result; v_today : str }.

(** The loop of [step_1] that fills [consolidated_data]. *)
Fixpoint consolidate (visits : list visit) (consolidated_data : list (row str))
    (log : list log_record) : outcome (list (row str)) * list log_record :=
  match visits with
  | [] => (Ok consolidated_data, log)
  | v :: rest =>
      match scrape_prices (v_url v) (v_net v) log with
      | (Ok product_data, log') =>
          consolidate rest
            (consolidated_data ++ map (with_date (v_today v)) product_data) log'
      | (Raise e, log') => (Raise e, log')
      | (Uninterpreted, log') => (Uninterpreted, log')
      end
  end.

(** [df.drop_duplicates()]: the first of equal rows stays, in its place. *)
Fixpoint drop_duplicates_from (seen : list (row str)) (df : list (row str))
  : list (row str) :=
  match df with
  | [] => []
  | r :: rest =>
      if decide (r ∈ seen) then drop_duplicates_from seen rest
      else r :: drop_duplicates_from (r :: seen) rest
  end.

Definition drop_duplicates (df : list (row str)) : list (row str) :=
  drop_duplicates_from [] df.

(** Sorting by a string key, as an insertion sort that keeps items of the
    same key in their order. *)
Fixpoint insert_by {A} (key : A -> str) (a : A) (sorted : list A) : list A :=
  match sorted with
  | [] => [a]
  | a' :: rest =>
      if str_le (key a) (key a') then a :: sorted
      else a' :: insert_by key a rest
  end.

Fixpoint sort_by {A} (key : A -> str) (l : list A) : list A :=
  match l with
  | [] => []
  | a :: rest => insert_by key a (sort_by key rest)
  end.

(** [df.sort_values(by='Name')].  pandas promises no order among the rows
    of one name; nothing below depends on it. *)
Definition sort_values {P} (df : list (row P)) : list (row P) :=
  sort_by Name df.

(** The ledger file, line by line. *)
Inductive csv_line :=
| Header                     (* Name,Price,Brand,Date *)
| Data (r : row str).

(** The data rows of a file, top to bottom. *)
Fixpoint data_rows (f : list csv_line) : list (row str) :=
  match f with
  | [] => []
  | Header :: rest => data_rows rest
  | Data r :: rest => r :: data_rows rest
  end.

(** [open(path, 'a')] followed by [df.to_csv(f, header=f.tell() == 0,
    index=False)]: in append mode the position is the size of the file, so
    the header goes to an empty (or new) file only. *)
Definition to_csv_append (f : list csv_line) (df : list (row str)) : list csv_line :=
  f ++ (if decide (f = []) then [Header] else []) ++ map Data df.

(** The files the run reads and writes; a file that does not exist is an
    empty one. *)
Record files := {
  results_dir : bool;                   (* os.path.exists('results') *)
  product_price_csv : list csv_line;    (* results/product_price.csv *)
  scraper_log : list log_record         (* scraper.log *)
}.

Definition step_1 (visits : list visit) (fs : files) : outcome unit * files :=
  match consolidate visits [] (scraper_log fs) with
  | (Ok consolidated_data, log) =>
      let df := drop_duplicates consolidated_data in
      let df_sorted := sort_values df in
      (Ok tt, {| results_dir := true;
                 product_price_csv := to_csv_append (product_price_csv fs) df_sorted;
                 scraper_log := log |})
  | (Raise e, log) =>
      (Raise e, {| results_dir := true;
                   product_price_csv := product_price_csv fs;
                   scraper_log := log |})
  | (Uninterpreted, log) =>
      (Uninterpreted, {| results_dir := true;
                         product_price_csv := product_price_csv fs;
                         scraper_log := log |})
  end.

(** ** The ledger read back: [pd.read_csv]

    [read_csv] types every column as a whole.  Two types of a column are
    interpreted: the 64-bit integers, when every cell is the numeral of
    one, and the Python objects, when some cell is text that is no number:
    then every cell stays the string it is in the file, but for the cells
    taken for a missing value, which become NaN.  The other columns
    (floats, booleans, integers next to missing values, integers beyond
    64 bits) are not interpreted. *)
Inductive column :=
| Int64 (cells : list Z)
| Object (cells : list (option str)).     (* None: NaN, a missing value *)

(** The Python value of a cell. *)
Inductive scalar := PyInt (n : Z) | PyStr (s : str) | PyNaN.

Global Instance scalar_eq_dec : EqDecision scalar.
Proof. solve_decision. Defined.

Definition tolist (c : column) : list scalar :=
  match c with
  | Int64 cells => map PyInt cells
  | Object cells => map (fun c => match c with Some s => PyStr s | None => PyNaN end) cells
  end.

(** The texts every version of pandas takes for a missing value (the
    empty cell among them), and the two that only some versions do. *)
Definition na_values : list str :=
  [ []; py "#N/A"; py "#N/A N/A"; py "#NA"; py "-1.#IND"; py "-1.#QNAN"; py "-NaN";
    py "-nan"; py "1.#IND"; py "1.#QNAN"; py "N/A"; py "NA"; py "NULL"; py "NaN";
    py "n/a"; py "nan"; py "null" ].

Definition na_values_of_some_versions : list str := [ py "None"; py "<NA>" ].

(** The integer a cell is the plain numeral of: digits without a leading
    zero, after a minus sign or not, within 64 bits. *)
Definition int64_numeral (s : str) : option Z :=
  let '(neg, digits) := match s with
                        | c :: t => if (c =? 45)%N then (true, t) else (false, s)
                        | [] => (false, s)
                        end in
  match span_digits digits 0 0 with
  | (v, S _, []) =>
      let n := (if neg then - Z.of_N v else Z.of_N v)%Z in
      if bool_decide (repr_Z n = s) && (- 2 ^ 63 <=? n)%Z && (n <? 2 ^ 63)%Z
      then Some n else None
  | _ => None
  end.

Fixpoint int64_numerals (cells : list str) : option (list Z) :=
  match cells with
  | [] => Some []
  | s :: rest => n ← int64_numeral s; ns ← int64_numerals rest; Some (n :: ns)
  end.

(** A cell that is text for sure.  A number, a boolean or a marker of a
    missing value begins with a space, a digit, a sign, a dot, [#], [<],
    a parenthesis or one of the letters i, n, t, f, and none has one of
    the letters below or a code point outside ASCII in it. *)
Definition starts_like_a_value (c : N) : bool :=
  isspace c || is_digit c || char_in (py "+-.#<(iInNtTfF") c.

Definition never_in_a_value (c : N) : bool :=
  (128 <=? c)%N || char_in (py "bcghkmopvwzBCGHKMOPVWZ") c.

Definition is_text (s : str) : bool :=
  match s with
  | [] => false
  | c :: _ => negb (starts_like_a_value c) || existsb never_in_a_value s
  end.

(** The code points whose way through the file is plain: no control
    character, nothing UTF-8 does not encode. *)
Definition encodable (c : N) : bool :=
  ((32 <=? c) && negb (c =? 127) && negb ((55296 <=? c) && (c <=? 57343))
   && (c <=? 1114111))%N.

Definition read_as_object (s : str) : option str :=
  if bool_decide (s ∈ na_values) then None else Some s.

(** The type [read_csv] gives to the column with these cells. *)
Definition infer_column (cells : list str) : outcome column :=
  if negb (forallb (forallb encodable) cells)
     || existsb (fun s => bool_decide (s ∈ na_values_of_some_versions)) cells
  then Uninterpreted
  else match cells with
       | [] => Ok (Object [])
       | _ =>
           match int64_numerals cells with
           | Some ns => Ok (Int64 ns)
           | None =>
               if existsb is_text cells then Ok (Object (map read_as_object cells))
               else Uninterpreted
           end
       end.

(** The columns of the ledger that [step_2] reads. *)
Record DataFrame := { Name_column : column; Price_column : column }.

(** The fields of a line of the file: a header line below the first line
    is a row like any other. *)
Definition fields (l : csv_line) : row str :=
  match l with
  | Header => {| Name := py "Name"; Price := py "Price"; Brand := py "Brand";
                 Date := py "Date" |}
  | Data r => r
  end.

(** [pd.read_csv('results/product_price.csv')].  The first line names the
    columns; an empty file raises [EmptyDataError], a [ValueError].  A
    file of 65536 rows or more is not interpreted: pandas reads a long
    file in pieces and types the columns of each piece on their own. *)
Definition read_csv (file : list csv_line) : outcome DataFrame :=
  match file with
  | [] => Raise (ValueError (py "No columns to parse from file"))
  | Data _ :: _ => Uninterpreted
  | Header :: lines =>
      let rows := map fields lines in
      if (65536 <=? N.of_nat (length rows))%N
         || negb (forallb (fun r => forallb encodable (Brand r)
                                    && forallb encodable (Date r)) rows)
      then Uninterpreted
      else
        names ← infer_column (map Name rows);
        prices ← infer_column (map Price rows);
        Ok {| Name_column := names; Price_column := prices |}
  end.

(** ** The aggregator: [step_2] *)

(** The groups of a pass over the rows: the price of a row goes to the end
    of the group of its name, which the first row of a name opens. *)
Fixpoint add_to_group {K P} `{EqDecision K} (name : K) (price : P)
    (groups : list (K * list P)) : list (K * list P) :=
  match groups with
  | [] => [(name, [price])]
  | (k, prices) :: rest =>
      if decide (k = name) then (k, prices ++ [price]) :: rest
      else (k, prices) :: add_to_group name price rest
  end.

Definition group_pairs {K P} `{EqDecision K} (rows : list (K * P)) : list (K * list P) :=
  fold_left (fun groups r => add_to_group (fst r) (snd r) groups) rows [].

(** Sorting by a key with its order, as an insertion sort. *)
Fixpoint insert_with {A K} (le : K -> K -> bool) (key : A -> K) (a : A)
    (sorted : list A) : list A :=
  match sorted with
  | [] => [a]
  | a' :: rest =>
      if le (key a) (key a') then a :: sorted
      else a' :: insert_with le key a rest
  end.

Fixpoint sort_with {A K} (le : K -> K -> bool) (key : A -> K) (l : list A) : list A :=
  match l with
  | [] => []
  | a :: rest => insert_with le key a (sort_with le key rest)
  end.

(** The order of the keys of a column: integers by value, strings code
    point by code point.  (The keys of one column are all integers or all
    strings.) *)
Definition scalar_le (a b : scalar) : bool :=
  match a, b with
  | PyInt m, PyInt n => (m <=? n)%Z
  | PyStr s, PyStr t => str_le s t
  | PyInt _, _ => true
  | PyStr _, PyNaN => true
  | PyStr _, PyInt _ => false
  | PyNaN, PyNaN => true
  | PyNaN, _ => false
  end.

(** The rows of a table, Name and Price. *)
Definition frame_rows (df : DataFrame) : list (scalar * scalar) :=
  zip (tolist (Name_column df)) (tolist (Price_column df)).

(** [groupby] leaves out the rows whose key is missing ([dropna=True]). *)
Definition dropna {P} (rows : list (scalar * P)) : list (scalar * P) :=
  filter (fun r => fst r <> PyNaN) rows.

(** [df.groupby('Name')['Price'].apply(list).reset_index()]: one row per
    name that is not missing, in the ascending order of the names
    ([groupby] sorts the keys), with the prices of the rows of that name
    in the order of the rows. *)
Definition groupby_apply_list (df : DataFrame) : list (scalar * list scalar) :=
  sort_with scalar_le fst (group_pairs (dropna (frame_rows df))).

(** What [repr] escapes of the code points outside ASCII depends on the
    Unicode database: a string with one of them is not interpreted. *)
Definition repr_str (s : str) : outcome str :=
  if forallb (fun c => c <? 128)%N s then Ok (repr_ascii s) else Uninterpreted.

Definition repr_scalar (v : scalar) : outcome str :=
  match v with
  | PyInt n => Ok (repr_Z n)
  | PyStr s => repr_str s
  | PyNaN => Ok (py "nan")
  end.

(** [str(list)]: the [repr] of the elements between brackets, separated
    by a comma and a space. *)
Definition str_of_list (l : list scalar) : outcome str :=
  reprs ← for_each repr_scalar l;
  Ok (py "[" ++ join (py ", ") reprs ++ py "]").

(** What [to_csv] writes for a cell. *)
Definition to_csv_cell (v : scalar) : str :=
  match v with
  | PyInt n => repr_Z n
  | PyStr s => s
  | PyNaN => []
  end.

(** [step_2(df)]: the rows of [results/grouped_product_prices.csv], columns
    Name and Prices; [to_csv] writes a list cell as its [str]. *)
Definition step_2_frame (df : DataFrame) : outcome (list (str * str)) :=
  let grouped := groupby_apply_list df in
  for_each (fun g => prices ← str_of_list (snd g); Ok (to_csv_cell (fst g), prices))
           grouped.

(** The entry point reads the ledger and hands the table to [step_2]. *)
Definition step_2_of_file (file : list csv_line) : outcome (list (str * str)) :=
  df_existing ← read_csv file;
  step_2_frame df_existing.

(** *** The aggregator on a table given by its rows

    The same for a table whose names are strings, none missing, and whose
    prices have one type [P] with its [repr]: on such a table
    [step_2_frame] is [step_2] (lemma [step_2_frame_table]). *)
Class Repr (P : Type) := repr : P -> str.
Global Instance repr_int : Repr Z := repr_Z.

(** [str(list)] for a list of such prices. *)
Definition str_list {P} `{Repr P} (l : list P) : str :=
  py "[" ++ join (py ", ") (map repr l) ++ py "]".

(** The groups of a pass over the rows of the table. *)
Definition group_rows {P} (df : list (row P)) : list (str * list P) :=
  fold_left (fun groups r => add_to_group (Name r) (Price r) groups) df [].

(** [df.groupby('Name')['Price'].apply(list).reset_index()] on it: one
    row per name, in the ascending order of the names. *)
Definition groupby_Name_Price_list {P} (df : list (row P)) : list (str * list P) :=
  sort_by fst (group_rows df).

(** [step_2(df)] on it. *)
Definition step_2 {P} `{Repr P} (df : list (row P)) : list (str * str) :=
  let grouped := groupby_Name_Price_list df in
  map (fun g => (fst g, str_list (snd g))) grouped.

(** The table read from a ledger whose names are text and whose prices are
    integers, by its rows. *)
Definition frame_of_table (df : list (row Z)) : DataFrame :=
  {| Name_column := Object (map (fun r => Some (Name r)) df);
     Price_column := Int64 (map Price df) |}.

(** ** The chart renderer: [plot_graph] *)

(** A Python float, a binary64 number: [Finite neg m e] is
    [(-1)^neg * m * 2^e], written with [m] odd, or with [m = 0] and
    [e = 0] for the two zeros. *)
Inductive pyfloat :=
| Finite (neg : bool) (m : N) (e : Z)
| Inf (neg : bool)
| NaN (neg : bool).

(** [s * 2^q] with the factors two of [s] moved to the exponent. *)
Fixpoint odd_part (s : positive) (q : Z) : positive * Z :=
  match s with
  | xO s' => odd_part s' (q + 1)
  | _ => (s, q)
  end.

Definition dyadic (neg : bool) (s : N) (q : Z) : pyfloat :=
  match s with
  | N0 => Finite neg 0 0
  | Npos p => let '(m, e) := odd_part p q in Finite neg (Npos m) e
  end.

(** Whether [2^k <= num / den], for positive [num] and [den]. *)
Definition ratio_ge_pow2 (num den k : Z) : bool :=
  (if 0 <=? k then den * 2 ^ k <=? num else den <=? num * 2 ^ (- k))%Z.

(** The [k] with [2^k <= num / den < 2^(k+1)]. *)
Definition floor_log2_ratio (num den : Z) : Z :=
  let k0 := (Z.log2 num - Z.log2 den)%Z in
  if ratio_ge_pow2 num den k0 then k0 else (k0 - 1)%Z.

(** The integer nearest to [n / d], the even one of two that are as
    near. *)
Definition round_half_even (n d : Z) : Z :=
  let s := (n / d)%Z in
  match (2 * (n mod d) ?= d)%Z with
  | Lt => s
  | Gt => (s + 1)%Z
  | Eq => if Z.even s then s else (s + 1)%Z
  end.

(** The binary64 number nearest to [(-1)^neg * m * 10^e10], as the
    conversion of a decimal numeral gives it: 53 bits of precision down to
    the exponent -1074, ties to the even neighbour, infinity from 2^1024
    on. *)
Definition binary64 (neg : bool) (m : N) (e10 : Z) : pyfloat :=
  match m with
  | N0 => Finite neg 0 0
  | Npos p =>
      let num := (if 0 <=? e10 then Zpos p * 10 ^ e10 else Zpos p)%Z in
      let den := (if 0 <=? e10 then 1 else 10 ^ (- e10))%Z in
      let k := floor_log2_ratio num den in
      let q := Z.max (k - 52) (-1074) in
      let s := (if 0 <=? q then round_half_even num (den * 2 ^ q)
                else round_half_even (num * 2 ^ (- q)) den)%Z in
      if ((971 <? q) || ((q =? 971) && (s =? 2 ^ 53)))%Z then Inf neg
      else dyadic neg (Z.to_N s) q
  end.

(** [float(str(n))] for an integer [n]: the binary64 number nearest to
    [n], which is [n] itself up to 2^53 in absolute value. *)
Definition float_of_Z (n : Z) : pyfloat := binary64 (n <? 0)%Z (Z.abs_N n) 0.

(** Underscores of a numeral: allowed between two digits only, and
    removed ([_Py_string_to_number_with_underscores]). *)
Fixpoint remove_underscores (prev : N) (s : str) : option str :=
  match s with
  | [] => if (prev =? 95)%N then None else Some []
  | c :: t =>
      if (c =? 95)%N then
        if is_digit prev then remove_underscores c t else None
      else if (prev =? 95)%N && negb (is_digit c) then None
      else t' ← remove_underscores c t; Some (c :: t')
  end.

Definition sign (s : str) : bool * str :=
  match s with
  | 45%N :: t => (true, t)
  | 43%N :: t => (false, t)
  | _ => (false, s)
  end.

Definition lower (c : N) : N :=
  if ((65 <=? c) && (c <=? 90))%N then (c + 32)%N else c.

(** An unsigned numeral, read to its end: digits, a fraction, an exponent. *)
Definition read_number (s : str) : option (N * Z) :=
  let '(int_part, int_digits, after_int) := span_digits s 0 0 in
  let '(m, frac_digits, after_frac) :=
    match after_int with
    | 46%N :: t => span_digits t int_part 0
    | _ => (int_part, 0%nat, after_int)
    end in
  if (int_digits + frac_digits =? 0)%nat then None
  else match after_frac with
       | [] => Some (m, (- Z.of_nat frac_digits)%Z)
       | c :: t =>
           if (lower c =? 101)%N then
             let '(exp_neg, after_sign) := sign t in
             match span_digits after_sign 0 0 with
             | (_, O, _) => None
             | (x, _, []) =>
                 Some (m, ((if exp_neg then - Z.of_N x else Z.of_N x)
                           - Z.of_nat frac_digits)%Z)
             | _ => None
             end
           else None
       end.

(** The whitespace [float] strips from an ASCII string (C's [isspace]). *)
Definition is_c_space (c : N) : bool := ((9 <=? c) && (c <=? 13) || (c =? 32))%N.

(** The exception of [float] for the string [s], which is ASCII. *)
Definition could_not_convert (s : str) : exn :=
  ValueError (py "could not convert string to float: " ++ repr_ascii s).

(** [float(s)] for a string [s].  A string with a code point outside ASCII
    is not interpreted: Python first rewrites the Unicode digits and
    spaces in it. *)
Definition float (s : str) : outcome pyfloat :=
  if existsb (fun c => (128 <=? c)%N) s then Uninterpreted
  else match remove_underscores 0 s with
       | None => Raise (could_not_convert s)
       | Some s1 =>
           let '(neg, body) := sign (strip_by is_c_space s1) in
           match read_number body with
           | Some (m, e) => Ok (binary64 neg m e)
           | None =>
               let word := map lower body in
               if decide (word = py "inf" \/ word = py "infinity") then Ok (Inf neg)
               else if decide (word = py "nan") then Ok (NaN neg)
               else Raise (could_not_convert s)
           end
       end.

(** The Prices cell of one row of the aggregate, turned into numbers:
    [[float(''.join(y.split(','))) for y in x.strip('[]').split(',')]]. *)
Definition parse_prices (x : str) : outcome (list pyfloat) :=
  for_each (fun y => float (join [] (split 44 y)))
           (split 44 (strip_chars (py "[]") x)).

(** [df['Name'].str.contains(pat)]: pandas takes [pat] for a regular
    expression ([regex=True] is the default) and keeps the rows where
    [re.search] finds it.  Interpreted here: the patterns made of ordinary
    characters and of the dot, which stands for any one code point but the
    newline. *)
Inductive atom := Char (c : N) | AnyChar.

Definition is_special (c : N) : bool :=
  char_in (py ".^$*+?{}[]\|()") c.

Fixpoint re_compile (pat : str) : outcome (list atom) :=
  match pat with
  | [] => Ok []
  | c :: t =>
      if (c =? 46)%N then atoms ← re_compile t; Ok (AnyChar :: atoms)
      else if is_special c then Uninterpreted
      else atoms ← re_compile t; Ok (Char c :: atoms)
  end.

Definition atom_matches (a : atom) (c : N) : bool :=
  match a with
  | Char c' => (c =? c')%N
  | AnyChar => negb (c =? 10)%N
  end.

(** [regex.match(s)]: the pattern at the head of [s]. *)
Fixpoint re_match (atoms : list atom) (s : str) : bool :=
  match atoms, s with
  | [], _ => true
  | _ :: _, [] => false
  | a :: atoms', c :: s' => atom_matches a c && re_match atoms' s'
  end.

(** [regex.search(s) is not None]: the pattern somewhere in [s]. *)
Fixpoint re_search (atoms : list atom) (s : str) : bool :=
  re_match atoms s ||
  match s with
  | [] => false
  | _ :: t => re_search atoms t
  end.

(** [df[df['Name'].str.contains(search_string)]], on the rows of the
    aggregate table (Name, Prices). *)
Definition str_contains_filter (search_string : str) (df : list (str * str))
  : outcome (list (str * str)) :=
  regex ← re_compile search_string;
  Ok (filter (fun g => re_search regex (fst g) = true) df).

(** What one turn of the loop draws and saves: a line per row that passed
    the filter, with its label, its prices and the index of its colour.
    The labels of the points are left out. *)
Record line := { label : str; ydata : list pyfloat; color : nat }.
Record chart := { title : str; lines : list line; savefig : str }.

Definition num_colors : nat := 20.   (* len(plt.cm.tab20.colors) *)

Fixpoint enumerate {A} (i : nat) (l : list A) : list (nat * A) :=
  match l with
  | [] => []
  | a :: rest => (i, a) :: enumerate (S i) rest
  end.

(** The number of bytes of a code point in UTF-8. *)
Definition utf8_len (c : N) : N :=
  (if c <? 128 then 1 else if c <? 2048 then 2 else if c <? 65536 then 3 else 4)%N.

(** Whether [name] names a file of its directory itself: no slash and no
    NUL in it, code points that UTF-8 encodes, at most 255 bytes. *)
Definition is_file_name (name : str) : bool :=
  forallb (fun c => negb (c =? 47) && negb (c =? 0)
                    && negb ((55296 <=? c) && (c <=? 57343)) && (c <=? 1114111))%N name
  && (fold_right (fun c n => utf8_len c + n) 0 name <=? 255)%N.

(** The body of the loop of [plot_graph] for one search string.
    [plt.savefig] writes the file in [results], the directory [plot_graph]
    has made sure of.  With a slash in the search string the file belongs
    to a directory below [results], which the program never makes, and the
    write raises [FileNotFoundError] unless somebody else made it; that
    write, and the write of a name the file system refuses, is not
    interpreted. *)
Definition plot_one (search_string : str) (df : list (str * str)) : outcome chart :=
  df_filtered ← str_contains_filter search_string df;
  df_prices ← for_each (fun g => prices ← parse_prices (snd g); Ok (fst g, prices))
                       df_filtered;
  if is_file_name (search_string ++ py "_plot.png") then
    Ok {| title := py "Price Variation Over Time - " ++ search_string;
          lines := map (fun ig => {| label := fst (snd ig);
                                     ydata := snd (snd ig);
                                     color := (fst ig mod num_colors)%nat |})
                       (enumerate 0 df_prices);
          savefig := py "results/" ++ search_string ++ py "_plot.png" |}
  else Uninterpreted.

(** [plot_graph(search_strings, df)]: the charts saved so far, and how the
    call ends. *)
Fixpoint plot_graph (search_strings : list str) (df : list (str * str))
    (saved : list chart) : outcome unit * list chart :=
  match search_strings with
  | [] => (Ok tt, saved)
  | search_string :: rest =>
      match plot_one search_string df with
      | Ok c => plot_graph rest df (saved ++ [c])
      | Raise e => (Raise e, saved)
      | Uninterpreted => (Uninterpreted, saved)
      end
  end.

(** ** The gallery builder: [create_html_for_png_files] *)

(** [os.path.join(a, b)] on POSIX. *)
Definition os_path_join (a b : str) : str :=
  if startswith b (py "/") then b
  else if bool_decide (a = []) || endswith a (py "/") then a ++ b
  else a ++ py "/" ++ b.

(** The lines of a text, each closed by a newline. *)
Definition unlines (ls : list str) : str := concat (map (fun l => l ++ newline) ls).

(** The start of the page, up to the opening of the container. *)
Definition html_head : str :=
  unlines [
    py "<!DOCTYPE html>";
    py "<html>";
    py "<head>";
    py "<title>Plot Gallery</title>";
    py "<style>";
    py "body {";
    py "    font-family: Arial, sans-serif;";
    py "    background-color: #f4f4f4;";
    py "    margin: 0;";
    py "    padding: 20px;";
    py "}";
    py ".container {";
    py "    max-width: 800px;";
    py "    margin: 0 auto;";
    py "}";
    py "h2 {";
    py "    color: #333;";
    py "}";
    py "img {";
    py "    display: block;";
    py "    margin: 10px auto;";
    py "    box-shadow: 0px 0px 5px 0px rgba(0,0,0,0.75);";
    py "}";
    py "</style>";
    py "</head>";
    py "<body>";
    py "<div class=" ++ dquote ++ py "container" ++ dquote ++ py ">"
  ].

(** The three strings the loop adds for one file. *)
Definition heading (png_file : str) : str :=
  py "<h2>" ++ png_file ++ py "</h2>" ++ newline.

Definition image (directory png_file : str) : str :=
  py "<img src=" ++ dquote ++ os_path_join directory png_file ++ dquote
  ++ py " alt=" ++ dquote ++ png_file ++ dquote
  ++ py " width=" ++ dquote ++ py "800" ++ dquote ++ py ">" ++ newline.

Definition line_break : str := py "<br>" ++ newline.

Definition html_tail : str :=
  py "</div>" ++ newline ++ py "</body>" ++ newline ++ py "</html>".

(** What the page is made of, piece by piece. *)
Inductive piece :=
| Head
| Heading (png_file : str)
| Image (directory png_file : str)
| LineBreak
| Tail.

Definition render (p : piece) : str :=
  match p with
  | Head => html_head
  | Heading png_file => heading png_file
  | Image directory png_file => image directory png_file
  | LineBreak => line_break
  | Tail => html_tail
  end.

(** [[file for file in os.listdir(directory) if file.endswith('.png')]] *)
Definition png_files (listdir : list str) : list str :=
  filter (fun file => endswith file (py ".png") = true) listdir.

(** The pieces [create_html_for_png_files] adds to [html_content], in
    order; [listdir] is what [os.listdir(directory)] returns. *)
Definition html_pieces (directory : str) (listdir : list str) : list piece :=
  [Head]
  ++ concat (map (fun png_file => [Heading png_file; Image directory png_file; LineBreak])
                 (png_files listdir))
  ++ [Tail].

(** [create_html_for_png_files(directory)]: the text written to
    [plot_gallery.html]. *)
Definition create_html_for_png_files (directory : str) (listdir : list str) : str :=
  concat (map render (html_pieces directory listdir)).

(** How many times [sub] occurs in [s] (at any position). *)
Fixpoint occurrences (sub s : str) : nat :=
  (if startswith s sub then 1 else 0) +
  match s with
  | [] => 0
  | _ :: t => occurrences sub t
  end.

(** ** The entry point: the list [urls] *)

Definition url_picanha : str :=
  py "https://www.makro.pro/c/search?q=%E0%B9%80%E0%B8%99%E0%B8%B7%E0%B9%89%E0%B8%AD%E0%B8%9E%E0%B8%B4%E0%B8%84%E0%B8%B2%E0%B8%99%E0%B8%A2%E0%B9%88%E0%B8%B2".
Definition url_probutcher_striploin : str :=
  py "https://www.makro.pro/c/search?q=%E0%B9%82%E0%B8%9B%E0%B8%A3%E0%B8%9A%E0%B8%B8%E0%B8%8A%E0%B9%80%E0%B8%8A%E0%B8%AD%E0%B8%A3%E0%B9%8C+%E0%B8%AA%E0%B8%B1%E0%B8%99%E0%B8%99%E0%B8%AD%E0%B8%81".
Definition url_beef_striploin : str :=
  py "https://www.makro.pro/c/search?q=%E0%B8%AA%E0%B8%B1%E0%B8%99%E0%B8%99%E0%B8%AD%E0%B8%81%E0%B8%A7%E0%B8%B1%E0%B8%A7".
Definition url_ribeye : str :=
  py "https://www.makro.pro/c/search?q=%E0%B8%AA%E0%B8%B1%E0%B8%99%E0%B9%81%E0%B8%AB%E0%B8%A5%E0%B8%A1".
Definition url_beef_ribeye : str :=
  py "https://www.makro.pro/c/search?q=%E0%B9%80%E0%B8%99%E0%B8%B7%E0%B9%89%E0%B8%AD%E0%B8%AA%E0%B8%B1%E0%B8%99%E0%B9%81%E0%B8%AB%E0%B8%A5%E0%B8%A1%E0%B8%A3%E0%B8%B4%E0%B8%9A%E0%B8%AD%E0%B8%B2%E0%B8%A2".
Definition url_probutcher_chuck : str :=
  py "https://www.makro.pro/c/search?q=%E0%B9%82%E0%B8%9B%E0%B8%A3%E0%B8%9A%E0%B8%B8%E0%B8%8A%E0%B9%80%E0%B8%8A%E0%B8%AD%E0%B8%A3%E0%B9%8C+%E0%B9%80%E0%B8%99%E0%B8%B7%E0%B9%89%E0%B8%AD+%E0%B8%AA%E0%B8%B1%E0%B8%99%E0%B8%84%E0%B8%AD".

(** The list literal of the source.  No comma stands between its last two
    strings, which Python therefore reads as one string. *)
Definition urls : list str :=
  [ url_picanha;
    url_probutcher_striploin;
    url_beef_striploin;
    url_ribeye;
    url_beef_ribeye ++ url_probutcher_chuck ].

(** The searches the comments of the literal name, one per comment. *)
Definition searches_named : list str :=
  [ url_picanha; url_probutcher_striploin; url_beef_striploin; url_ribeye;
    url_beef_ribeye; url_probutcher_chuck ].

(** ** Notions used in the statements *)

Definition key_le {A} (key : A -> str) (a1 a2 : A) : Prop :=
  str_le (key a1) (key a2) = true.

(** Non-decreasing by Name. *)
Definition name_le {P} (r1 r2 : row P) : Prop := key_le Name r1 r2.

(** The prices of the group of a name, when there is one. *)
Fixpoint lookup_group {K P} `{EqDecision K} (name : K) (groups : list (K * list P))
  : option (list P) :=
  match groups with
  | [] => None
  | (k, prices) :: rest =>
      if decide (k = name) then Some prices else lookup_group name rest
  end.

(** The rows a run adds to the ledger: the fetched rows, each once, by name. *)
Definition batch (consolidated_data : list (row str)) : list (row str) :=
  sort_values (drop_duplicates consolidated_data).

(** The ledger a run would leave if it united the rows of the file with the
    fetched ones, dropped the duplicates of the whole, sorted it and wrote
    it back under one header. *)
Definition merged_rewrite (old : list csv_line) (data : list (row str))
  : list csv_line :=
  Header :: map Data (sort_values (drop_duplicates (data_rows old ++ data))).

(** A request that failed: [requests.get] raised one of the exceptions of
    requests (no connection, a timeout, too many redirects, ...), or the
    response has a client-error or server-error status. *)
Definition request_failed (net : http_result) : Prop :=
  match net with
  | GetRaises (RequestException _ _) => True
  | GetRaises _ => False
  | GetReturns r => (400 <= status_code r < 600)%Z
  end.

(** A container with the three elements the loop looks for. *)
Definition complete (c : container) : Prop :=
  is_Some (name_div c) /\ is_Some (price_p c) /\ is_Some (brand_div c).

(** An answer of the network [scrape_prices] copes with: an exception of
    requests, or a response whose containers are complete. *)
Definition answered (net : http_result) : Prop :=
  match net with
  | GetRaises (RequestException _ _) => True
  | GetRaises _ => False
  | GetReturns r => Forall complete (products r)
  end.

Definition error_record (url msg : str) : log_record :=
  {| levelname := ERROR; message := py "Error scraping " ++ url ++ py ": " ++ msg |}.

(** ** Examples used below *)

Definition example_row (name price date : string) : row str :=
  {| Name := py name; Price := py price; Brand := py "Makro"; Date := py date |}.

Definition example_container (name price : string) : container :=
  {| name_div := Some (py name); price_p := Some (py price);
     brand_div := Some (py " Makro ") |}.

Definition example_visit (status : Z) (products : list container) : visit :=
  {| v_url := url_picanha;
     v_net := GetReturns {| status_code := status; reason := py "";
                            resp_url := url_picanha; products := products |};
     v_today := py "2024-05-02" |}.

(** A ledger with one row from an earlier day. *)
Definition example_files : files :=
  {| results_dir := true;
     product_price_csv := [Header; Data (example_row "Beef" "250" "2024-05-01")];
     scraper_log := [] |}.

(** A run that fetches one page with one product, twice the same. *)
Definition example_visits : list visit :=
  [example_visit 200 [example_container " Angus " "1,250";
                      example_container "Angus" "1250"]].

(** No file yet: the state before a first run. *)
Definition no_files : files :=
  {| results_dir := false; product_price_csv := []; scraper_log := [] |}.

(** The files after that run on [example_files]. *)
Definition example_files_after : files :=
  {| results_dir := true;
     product_price_csv :=
       [Header; Data (example_row "Beef" "250" "2024-05-01");
        Data (example_row "Angus" "1250" "2024-05-02")];
     scraper_log := [] |}.

(** The ledger of the specification's example, as pandas reads it back. *)
Definition example_ledger : list (row Z) :=
  [ {| Name := py "A"; Price := 10%Z; Brand := py "Makro"; Date := py "2024-05-01" |};
    {| Name := py "A"; Price := 20%Z; Brand := py "Makro"; Date := py "2024-05-02" |};
    {| Name := py "B"; Price := 5%Z; Brand := py "Makro"; Date := py "2024-05-01" |} ].

(** The aggregate table of the specification's example for the filters. *)
Definition example_aggregate : list (str * str) :=
  [ (py "Pork Belly", py "[120]"); (py "Wagyu Sirloin", py "[1250, 1300]") ].

Definition is_heading (p : piece) : bool :=
  match p with Heading _ => true | _ => false end.

Definition is_image (p : piece) : bool :=
  match p with Image _ _ => true | _ => false end.


(** The pieces [str_list] is cut into at its commas: every element but the
    first with the space that follows the comma. *)
Definition pieces (reprs : list str) : list str :=
  match reprs with
  | [] => [[]]
  | r :: rest => r :: map (cons 32%N) rest
  end.










(** ** Further notions and examples *)

Global Instance request_failed_dec (net : http_result) : Decision (request_failed net).
Proof.
  destruct net as [e|r]; simpl; [destruct e|]; try apply _.
Defined.

(** No whitespace at either end. *)
Definition no_outer_space (s : str) : Prop :=
  (forall c, head s = Some c -> isspace c = false) /\
  (forall c, last s = Some c -> isspace c = false).

(** A ledger file as [step_1] writes it from nothing: empty, or the header
    and data rows below it. *)
Definition header_first (f : list csv_line) : Prop :=
  f = [] \/ exists rows, f = Header :: map Data rows.

(** The log records of the requests that failed, one per URL. *)
Fixpoint error_records (urls msgs : list str) : list log_record :=
  match urls, msgs with
  | url :: urls', msg :: msgs' => error_record url msg :: error_records urls' msgs'
  | _, _ => []
  end.

(** A container without its price element. *)
Definition example_no_price : container :=
  {| name_div := Some (py "Angus"); price_p := None; brand_div := Some (py "Makro") |}.

(** A request that found no connection. *)
Definition example_no_connection : visit :=
  {| v_url := url_ribeye;
     v_net := GetRaises (RequestException ConnectionError (py "Connection refused"));
     v_today := py "2024-05-02" |}.

(** A page whose second container has no price element. *)
Definition example_page_missing : response :=
  {| status_code := 200; reason := py "OK"; resp_url := url_beef_striploin;
     products := [example_container "Wagyu" "900"; example_no_price] |}.

Definition example_visit_missing : visit :=
  {| v_url := url_beef_striploin; v_net := GetReturns example_page_missing;
     v_today := py "2024-05-02" |}.

(** The row comes from a container of a page of one of the visits: a page
    that was returned without an error status, whose container has its
    three elements; the row has the date taken after that page. *)
Definition fetched_from (visits : list visit) (r : row str) : Prop :=
  exists v page c p,
    v ∈ visits /\ v_net v = GetReturns page /\
    ~ (400 <= status_code page < 600)%Z /\
    c ∈ products page /\ scrape_product c = Ok p /\
    r = with_date (v_today v) p.

(** A request answered with an error status. *)
Definition example_not_found : visit := example_visit 404 [].

(** The path and the title of the chart of a search string. *)
Definition plot_path (search_string : str) : str :=
  py "results/" ++ search_string ++ py "_plot.png".

Definition plot_title (search_string : str) : str :=
  py "Price Variation Over Time - " ++ search_string.

(** An aggregate with a Prices text that is no list of numbers. *)
Definition example_bad_aggregate : list (str * str) :=
  [ (py "Pork Belly", py "['N/A']"); (py "Wagyu Sirloin", py "[1250, 1300]") ].

(** The chart of "Wagyu" on that aggregate. *)
Definition example_wagyu_chart : chart :=
  {| title := plot_title (py "Wagyu");
     lines := [ {| label := py "Wagyu Sirloin";
                   ydata := [float_of_Z 1250; float_of_Z 1300];
                   color := 0 |} ];
     savefig := plot_path (py "Wagyu") |}.

(** The list [search_str] of the entry point, five Thai words (picanha,
    chuck, striploin, ribeye, wagyu), by their code points. *)
Definition search_str : list str :=
  [ [3614; 3636; 3588; 3634; 3609; 3618; 3656; 3634]%N;
    [3626; 3633; 3609; 3588; 3629]%N;
    [3626; 3633; 3609; 3609; 3629; 3585]%N;
    [3626; 3633; 3609; 3649; 3627; 3621; 3617]%N;
    [3623; 3634; 3585; 3636; 3623]%N ].




(** * Properties *)

(** ** Lists and strings *)

Lemma str_le_total (a b : str) : str_le a b = false -> str_le b a = true.
Proof.
  revert b. induction a as [|x a IH]; intros [|y b]; simpl; try done.
  intros H. apply orb_false_iff in H as [Hlt H].
  apply N.ltb_ge in Hlt.
  destruct (N.eqb_spec x y) as [->|Hne].
  - simpl in H. rewrite (IH _ H), N.eqb_refl. apply orb_true_r.
  - assert (y < x)%N as Hyx by lia.
    apply N.ltb_lt in Hyx. by rewrite Hyx.
Qed.

Lemma str_le_refl (a : str) : str_le a a = true.
Proof.
  induction a as [|x a IH]; simpl; [done|].
  rewrite N.eqb_refl, IH. apply orb_true_r.
Qed.

Lemma startswith_app (s t : str) : startswith (s ++ t) s = true.
Proof.
  induction s as [|c s IH]; simpl; [done|].
  by rewrite N.eqb_refl, IH.
Qed.

Lemma startswith_spec (s prefix : str) :
  startswith s prefix = true <-> exists t, s = prefix ++ t.
Proof.
  revert s. induction prefix as [|p prefix IH]; intros s; simpl.
  - split; [by exists s|done].
  - destruct s as [|c s].
    + split; [done|]. by intros [t Ht].
    + rewrite andb_true_iff, N.eqb_eq, IH. split.
      * intros [-> [t ->]]. by exists t.
      * intros [t Ht]. injection Ht as -> ->. eauto.
Qed.

Lemma contains_spec (sub s : str) :
  contains sub s = true <-> exists before after, s = before ++ sub ++ after.
Proof.
  induction s as [|c s IH]; simpl.
  - rewrite orb_false_r, startswith_spec. split.
    + intros [t Ht]. by exists [], t.
    + intros (before & after & H).
      destruct before; [|done]. by exists after.
  - rewrite orb_true_iff, startswith_spec, IH. split.
    + intros [[t Ht]|(before & after & ->)].
      * by exists [], t.
      * by exists (c :: before), after.
    + intros (before & after & H). destruct before as [|c' before].
      * left. by exists after.
      * right. injection H as -> ->. by exists before, after.
Qed.

(** ** The ledger writer *)

Lemma drop_duplicates_from_elem (seen df : list (row str)) (r : row str) :
  r ∈ drop_duplicates_from seen df <-> r ∈ df /\ r ∉ seen.
Proof.
  revert seen. induction df as [|r' df IH]; intros seen; simpl.
  - rewrite elem_of_nil. tauto.
  - destruct (decide (r' ∈ seen)) as [Hin|Hnin].
    + rewrite IH, elem_of_cons. split; [tauto|].
      intros [[->|Hr] Hseen]; [contradiction|tauto].
    + rewrite !elem_of_cons, IH, not_elem_of_cons.
      destruct (decide (r = r')) as [->|Hne]; tauto.
Qed.

Lemma drop_duplicates_from_NoDup (seen df : list (row str)) :
  NoDup (drop_duplicates_from seen df).
Proof.
  revert seen. induction df as [|r df IH]; intros seen; simpl.
  - constructor.
  - destruct (decide (r ∈ seen)); [apply IH|].
    constructor; [|apply IH].
    rewrite drop_duplicates_from_elem, not_elem_of_cons. tauto.
Qed.

Lemma drop_duplicates_elem (df : list (row str)) (r : row str) :
  r ∈ drop_duplicates df <-> r ∈ df.
Proof.
  unfold drop_duplicates. rewrite drop_duplicates_from_elem, elem_of_nil. tauto.
Qed.

Lemma drop_duplicates_NoDup (df : list (row str)) : NoDup (drop_duplicates df).
Proof. apply drop_duplicates_from_NoDup. Qed.

Lemma insert_by_perm {A} (key : A -> str) (a : A) (l : list A) :
  insert_by key a l ≡ₚ a :: l.
Proof.
  induction l as [|a' l IH]; simpl; [done|].
  destruct (str_le (key a) (key a')); [done|].
  rewrite IH. apply Permutation_swap.
Qed.

Lemma sort_by_perm {A} (key : A -> str) (l : list A) : sort_by key l ≡ₚ l.
Proof.
  induction l as [|a l IH]; simpl; [done|].
  by rewrite insert_by_perm, IH.
Qed.

Lemma insert_by_sorted {A} (key : A -> str) (a : A) (l : list A) :
  Sorted (key_le key) l -> Sorted (key_le key) (insert_by key a l).
Proof.
  induction 1 as [|a' l Hl IH Hhd]; simpl.
  - repeat constructor.
  - destruct (str_le (key a) (key a')) eqn:Hle.
    + repeat constructor; done.
    + constructor; [done|].
      apply str_le_total in Hle.
      destruct Hhd as [|a'' l Ha'']; simpl.
      * by constructor.
      * destruct (str_le (key a) (key a'')); by constructor.
Qed.

Lemma sort_by_sorted {A} (key : A -> str) (l : list A) :
  Sorted (key_le key) (sort_by key l).
Proof.
  induction l as [|a l IH]; simpl; [constructor|].
  by apply insert_by_sorted.
Qed.

Lemma sort_values_perm {P} (df : list (row P)) : sort_values df ≡ₚ df.
Proof. apply sort_by_perm. Qed.

Lemma sort_values_sorted {P} (df : list (row P)) : Sorted name_le (sort_values df).
Proof. apply sort_by_sorted. Qed.

Lemma data_rows_app (f g : list csv_line) :
  data_rows (f ++ g) = data_rows f ++ data_rows g.
Proof.
  induction f as [|[|r] f IH]; simpl; [done|done|]. by rewrite IH.
Qed.

Lemma data_rows_Data (df : list (row str)) : data_rows (map Data df) = df.
Proof. induction df as [|r df IH]; simpl; [done|]. by rewrite IH. Qed.

Lemma data_rows_to_csv_append (f : list csv_line) (df : list (row str)) :
  data_rows (to_csv_append f df) = data_rows f ++ df.
Proof.
  unfold to_csv_append. rewrite !data_rows_app, data_rows_Data.
  by destruct (decide (f = [])).
Qed.

Lemma batch_NoDup (data : list (row str)) : NoDup (batch data).
Proof.
  unfold batch. rewrite sort_values_perm. apply drop_duplicates_NoDup.
Qed.

Lemma batch_elem (data : list (row str)) (r : row str) :
  r ∈ batch data <-> r ∈ data.
Proof.
  unfold batch. rewrite sort_values_perm. apply drop_duplicates_elem.
Qed.

Lemma batch_sorted (data : list (row str)) : Sorted name_le (batch data).
Proof. apply sort_values_sorted. Qed.

(** A run that ends well is a run whose loop over the URLs ends well; it
    leaves the ledger with the batch added at its end. *)
Lemma step_1_Ok (visits : list visit) (fs fs' : files) :
  step_1 visits fs = (Ok tt, fs') <->
  exists data,
    consolidate visits [] (scraper_log fs) = (Ok data, scraper_log fs') /\
    results_dir fs' = true /\
    product_price_csv fs' = to_csv_append (product_price_csv fs) (batch data).
Proof.
  unfold step_1, batch.
  destruct (consolidate visits [] (scraper_log fs)) as [[data|e|] log]; split.
  - intros [= <-]. by exists data.
  - intros (data' & [= <- Hlog] & Hdir & Hcsv). destruct fs'; simpl in *.
    by subst.
  - done.
  - by intros (? & ? & _).
  - done.
  - by intros (? & ? & _).
Qed.

Lemma Sorted_app_iff {A} (R : A -> A -> Prop) (l1 l2 : list A) :
  Sorted R (l1 ++ l2) <->
  Sorted R l1 /\ Sorted R l2 /\
  forall a b, last l1 = Some a -> head l2 = Some b -> R a b.
Proof.
  induction l1 as [|x l1 IH]; simpl.
  - split; [intros H; repeat split; [constructor|done|done]|tauto].
  - split.
    + intros H. apply Sorted_inv in H as [Hs Hhd].
      apply IH in Hs as (Hs1 & Hs2 & Hlink). repeat split; [|done|].
      * constructor; [done|]. destruct l1; [constructor|].
        inversion Hhd; by constructor.
      * intros a b Ha Hb. destruct l1 as [|y l1]; simpl in *.
        -- injection Ha as <-. destruct l2; [done|].
           injection Hb as <-. by inversion Hhd.
        -- by apply Hlink.
    + intros (Hs1 & Hs2 & Hlink). apply Sorted_inv in Hs1 as [Hs1 Hhd].
      constructor.
      * apply IH. repeat split; [done|done|].
        intros a b Ha Hb. apply Hlink; [|done]. by destruct l1.
      * destruct l1 as [|y l1]; simpl in *.
        -- destruct l2; constructor. by apply Hlink.
        -- constructor. by inversion Hhd.
Qed.

(** ** The fetcher *)

Lemma scrape_prices_try_failed (net : http_result) :
  request_failed net ->
  exists kind msg, scrape_prices_try net = Raise (RequestException kind msg).
Proof.
  destruct net as [e|r]; simpl.
  - destruct e; try done. eauto.
  - intros [Hlo Hhi]. unfold scrape_prices_try, raise_for_status; simpl.
    destruct (400 <=? status_code r)%Z eqn:H4; [|lia].
    destruct (status_code r <? 500)%Z eqn:H5; simpl; [eauto|].
    destruct (500 <=? status_code r)%Z eqn:H6; [|lia].
    destruct (status_code r <? 600)%Z eqn:H7; [|lia].
    simpl. eauto.
Qed.

(** A failed request gives no rows and one record in the log, and raises
    nothing; the loop of [step_1] goes on with the next URL, its data
    unchanged. *)
Lemma scrape_prices_request_failed (url : str) (net : http_result)
    (log : list log_record) :
  request_failed net ->
  exists msg, scrape_prices url net log = (Ok [], log ++ [error_record url msg]).
Proof.
  intros H. apply scrape_prices_try_failed in H as (kind & msg & H).
  exists msg. unfold scrape_prices. by rewrite H.
Qed.

Lemma consolidate_request_failed (v : visit) (rest : list visit)
    (data : list (row str)) (log : list log_record) :
  request_failed (v_net v) ->
  exists msg,
    consolidate (v :: rest) data log
    = consolidate rest data (log ++ [error_record (v_url v) msg]).
Proof.
  intros H. destruct (scrape_prices_request_failed (v_url v) _ log H) as [msg Hs].
  exists msg. simpl. rewrite Hs. simpl. by rewrite app_nil_r.
Qed.


(** [scrape_prices] returns for every answer of the network but a
    response with a container that lacks an element (and an exception that
    is none of requests), and so does [step_1]. *)
Lemma scrape_products_complete (cs : list container) :
  Forall complete cs -> exists rows, for_each scrape_product cs = Ok rows.
Proof.
  induction 1 as [|c cs (Hname & Hprice & Hbrand) _ [rows IH]]; [by eexists|].
  destruct c as [name price brand]; simpl in *.
  destruct Hname as [name_text ->], Hprice as [price_text ->],
    Hbrand as [brand_text ->].
  simpl. rewrite IH. simpl. by eexists.
Qed.

Lemma scrape_prices_returns (url : str) (net : http_result) (log : list log_record) :
  answered net ->
  exists rows log', scrape_prices url net log = (Ok rows, log').
Proof.
  destruct net as [e|r]; simpl.
  - destruct e; try done. intros _. unfold scrape_prices. simpl. by eexists _, _.
  - intros [rows Hrows]%scrape_products_complete.
    unfold scrape_prices, scrape_prices_try. simpl.
    destruct (raise_for_status r) as [[]|e|] eqn:Hstatus; simpl.
    + rewrite Hrows. by eexists _, _.
    + unfold raise_for_status in Hstatus.
      repeat case_match; try done; injection Hstatus as <-; by eexists _, _.
    + unfold raise_for_status in Hstatus. by repeat case_match.
Qed.

Lemma consolidate_returns (visits : list visit) (data : list (row str))
    (log : list log_record) :
  Forall (fun v => answered (v_net v)) visits ->
  exists data' log', consolidate visits data log = (Ok data', log').
Proof.
  intros H. revert data log.
  induction H as [|v visits Hv _ IH]; intros data log; simpl; [by eexists _, _|].
  destruct (scrape_prices_returns (v_url v) _ log Hv) as (rows & log' & ->).
  apply IH.
Qed.

Lemma step_1_returns (visits : list visit) (fs : files) :
  Forall (fun v => answered (v_net v)) visits ->
  exists fs', step_1 visits fs = (Ok tt, fs').
Proof.
  intros H. destruct (consolidate_returns visits [] (scraper_log fs) H)
    as (data & log & Hdata).
  unfold step_1. rewrite Hdata. by eexists.
Qed.

(** ** The ledger writer: what a run leaves in the file *)

(** C2.  Equal rows of one run are written once: whatever the number of
    times a row was fetched, the run adds it to the ledger exactly once.
    Nothing is compared with the rows already in the file: of two runs that
    fetch the same rows, each adds its own copy, so that the file holds
    every fetched row twice more than before. *)
Theorem step_1_duplicates (visits1 visits2 : list visit) (fs : files)
    (data : list (row str)) (log1 log2 : list log_record) :
  consolidate visits1 [] (scraper_log fs) = (Ok data, log1) ->
  consolidate visits2 [] log1 = (Ok data, log2) ->
  exists fs1 fs2,
    step_1 visits1 fs = (Ok tt, fs1) /\
    step_1 visits2 fs1 = (Ok tt, fs2) /\
    forall r,
      let copies (f : files) := count_occ row_eq_dec (data_rows (product_price_csv f)) r in
      let once := if decide (r ∈ data) then 1 else 0 in
      copies fs1 = copies fs + once /\
      copies fs2 = copies fs + once + once.
Proof.
  intros H1 H2.
  assert (forall r, count_occ row_eq_dec (batch data) r
                    = if decide (r ∈ data) then 1 else 0) as Hbatch.
  { intros r. destruct (decide (r ∈ data)) as [Hin|Hnin].
    - apply NoDup_count_occ'; [apply NoDup_ListNoDup, batch_NoDup|].
      by apply list_elem_of_In, batch_elem.
    - apply count_occ_not_In. by rewrite <- list_elem_of_In, batch_elem. }
  eexists {| results_dir := true; scraper_log := log1 |},
          {| results_dir := true; scraper_log := log2 |}.
  split; [|split].
  - unfold step_1. rewrite H1. reflexivity.
  - unfold step_1. simpl. rewrite H2. reflexivity.
  - intros r. simpl.
    rewrite !data_rows_to_csv_append, !count_occ_app, Hbatch. lia.
Qed.

Lemma step_1_duplicates_witness :
  consolidate example_visits [] (scraper_log example_files)
  = (Ok [example_row "Angus" "1250" "2024-05-02";
         example_row "Angus" "1250" "2024-05-02"], []) /\
  consolidate example_visits [] []
  = (Ok [example_row "Angus" "1250" "2024-05-02";
         example_row "Angus" "1250" "2024-05-02"], []) /\
  exists fs1 fs2,
    step_1 example_visits example_files = (Ok tt, fs1) /\
    step_1 example_visits fs1 = (Ok tt, fs2) /\
    forall r,
      let copies (f : files) := count_occ row_eq_dec (data_rows (product_price_csv f)) r in
      let once := if decide (r ∈ [example_row "Angus" "1250" "2024-05-02";
                                  example_row "Angus" "1250" "2024-05-02"])
                  then 1 else 0 in
      copies fs1 = copies example_files + once /\
      copies fs2 = copies example_files + once + once.
Proof.
  split; [reflexivity|]. split; [reflexivity|].
  apply (step_1_duplicates example_visits example_visits example_files _ [] []);
    reflexivity.
Defined.

(** C3, as the code has it.  A run reads nothing of the ledger and rewrites
    nothing of it: what the file held stays as it is, rows and order, and
    the run adds after it the rows it fetched, these alone rid of their
    duplicates and sorted by name; the header is written when the file was
    empty, and then only. *)
Theorem step_1_appends (visits : list visit) (fs fs' : files) :
  step_1 visits fs = (Ok tt, fs') ->
  exists data,
    consolidate visits [] (scraper_log fs) = (Ok data, scraper_log fs') /\
    product_price_csv fs'
    = product_price_csv fs
      ++ (if decide (product_price_csv fs = []) then [Header] else [])
      ++ map Data (batch data) /\
    NoDup (batch data) /\
    Sorted name_le (batch data) /\
    forall r, r ∈ batch data <-> r ∈ data.
Proof.
  intros H. apply step_1_Ok in H as (data & Hdata & _ & Hcsv).
  exists data. repeat split; try done.
  - apply batch_NoDup.
  - apply batch_sorted.
  - apply batch_elem.
  - apply batch_elem.
Qed.

Lemma step_1_appends_witness :
  step_1 example_visits example_files = (Ok tt, example_files_after) /\
  exists data,
    consolidate example_visits [] (scraper_log example_files)
    = (Ok data, scraper_log example_files_after) /\
    product_price_csv example_files_after
    = product_price_csv example_files
      ++ (if decide (product_price_csv example_files = []) then [Header] else [])
      ++ map Data (batch data) /\
    NoDup (batch data) /\
    Sorted name_le (batch data) /\
    forall r, r ∈ batch data <-> r ∈ data.
Proof.
  split; [reflexivity|].
  apply (step_1_appends example_visits example_files example_files_after).
  reflexivity.
Defined.

(** A first run creates the file with its header; a run that fetched
    nothing leaves a file that had rows as it was. *)
Lemma step_1_first_run :
  step_1 example_visits no_files
  = (Ok tt, {| results_dir := true;
               product_price_csv :=
                 [Header; Data (example_row "Angus" "1250" "2024-05-02")];
               scraper_log := [] |}) /\
  step_1 [] no_files
  = (Ok tt, {| results_dir := true; product_price_csv := [Header];
               scraper_log := [] |}) /\
  step_1 [] example_files = (Ok tt, example_files).
Proof. repeat split; reflexivity. Qed.

(** C3, as it is written, fails: the run of the example leaves the old row
    above the new one, where a merge of the whole table would have put the
    new row first. *)
Lemma step_1_does_not_merge :
  step_1 example_visits example_files = (Ok tt, example_files_after) /\
  fst (consolidate example_visits [] (scraper_log example_files))
  = Ok [example_row "Angus" "1250" "2024-05-02";
        example_row "Angus" "1250" "2024-05-02"] /\
  merged_rewrite (product_price_csv example_files)
    [example_row "Angus" "1250" "2024-05-02"; example_row "Angus" "1250" "2024-05-02"]
  = [Header; Data (example_row "Angus" "1250" "2024-05-02");
     Data (example_row "Beef" "250" "2024-05-01")] /\
  product_price_csv (snd (step_1 example_visits example_files))
  <> merged_rewrite (product_price_csv example_files)
       [example_row "Angus" "1250" "2024-05-02";
        example_row "Angus" "1250" "2024-05-02"].
Proof.
  split; [reflexivity|]. split; [reflexivity|]. split; [reflexivity|].
  vm_compute. discriminate.
Qed.

(** C4, as the code has it.  The rows a run adds are non-decreasing by
    name, read top to bottom.  The rows of the whole file are so exactly
    when those it held before were, and the last of them is not above the
    first row added: so it is after a run on an empty file, and not in
    general after a later one. *)
Theorem step_1_sorted (visits : list visit) (fs fs' : files) :
  step_1 visits fs = (Ok tt, fs') ->
  exists added,
    data_rows (product_price_csv fs') = data_rows (product_price_csv fs) ++ added /\
    Sorted name_le added /\
    (data_rows (product_price_csv fs) = [] ->
     Sorted name_le (data_rows (product_price_csv fs'))) /\
    (Sorted name_le (data_rows (product_price_csv fs')) <->
     Sorted name_le (data_rows (product_price_csv fs)) /\
     forall r1 r2, last (data_rows (product_price_csv fs)) = Some r1 ->
                   head added = Some r2 -> name_le r1 r2).
Proof.
  intros H. apply step_1_Ok in H as (data & _ & _ & Hcsv).
  exists (batch data). rewrite Hcsv, data_rows_to_csv_append.
  pose proof (batch_sorted data) as Hsorted.
  split; [done|]. split; [done|]. split.
  - intros ->. done.
  - rewrite Sorted_app_iff. tauto.
Qed.

Lemma step_1_sorted_witness :
  step_1 example_visits example_files = (Ok tt, example_files_after) /\
  exists added,
    data_rows (product_price_csv example_files_after)
    = data_rows (product_price_csv example_files) ++ added /\
    Sorted name_le added /\
    (data_rows (product_price_csv example_files) = [] ->
     Sorted name_le (data_rows (product_price_csv example_files_after))) /\
    (Sorted name_le (data_rows (product_price_csv example_files_after)) <->
     Sorted name_le (data_rows (product_price_csv example_files)) /\
     forall r1 r2, last (data_rows (product_price_csv example_files)) = Some r1 ->
                   head added = Some r2 -> name_le r1 r2).
Proof.
  split; [reflexivity|].
  apply (step_1_sorted example_visits example_files example_files_after).
  reflexivity.
Defined.

(** C4, as it is written, fails: after the run of the example the ledger
    reads Beef, then Angus. *)
Lemma step_1_ledger_not_sorted :
  step_1 example_visits example_files = (Ok tt, example_files_after) /\
  Sorted name_le (data_rows (product_price_csv example_files)) /\
  ~ Sorted name_le (data_rows (product_price_csv example_files_after)).
Proof.
  split; [reflexivity|]. split.
  - repeat constructor.
  - intros H. apply Sorted_inv in H as [_ H].
    apply HdRel_inv in H. vm_compute in H. discriminate.
Qed.

(** ** The fetcher at a status that is neither a success nor an error *)

Lemma scrape_products_raises (cs : list container) (e : exn) :
  for_each scrape_product cs = Raise e -> exists msg, e = AttributeError msg.
Proof.
  induction cs as [|c cs IH]; simpl; [done|].
  destruct c as [[name|] [price|] [brand|]]; simpl;
    try (intros [= <-]; by eexists).
  destruct (for_each scrape_product cs) as [rows|e'|]; simpl; [done| |done].
  intros [= <-]. by apply IH.
Qed.

(** The handler of [scrape_prices] runs for the failed requests and for no
    other answer: with any other answer the log stays as it was. *)
Lemma scrape_prices_log_unchanged (url : str) (net : http_result)
    (log : list log_record) :
  ~ request_failed net -> snd (scrape_prices url net log) = log.
Proof.
  destruct net as [e|r]; simpl; intros Hnot.
  - unfold scrape_prices. simpl. by destruct e.
  - assert (raise_for_status r = Ok tt) as Hstatus.
    { unfold raise_for_status.
      destruct (Z.leb_spec 400 (status_code r)), (Z.ltb_spec (status_code r) 500),
        (Z.leb_spec 500 (status_code r)), (Z.ltb_spec (status_code r) 600);
        simpl; try done; lia. }
    unfold scrape_prices, scrape_prices_try. simpl. rewrite Hstatus. simpl.
    destruct (for_each scrape_product (products r)) as [rows|e|] eqn:Hrows;
      try done.
    by destruct (scrape_products_raises _ _ Hrows) as [msg ->].
Qed.

(** C1 at a 3xx status.  [raise_for_status] raises for the statuses 400 to
    599 only, so that a response with status 304 passes for a success:
    nothing is logged, with an empty body and with a product in the body,
    and in the second case the row of the product is returned.  The same
    response under status 404 gives no row and one record in the log. *)
Theorem scrape_prices_status_304 :
  scrape_prices url_picanha (v_net (example_visit 304 [])) [] = (Ok [], []) /\
  scrape_prices url_picanha
    (v_net (example_visit 304 [example_container "Angus" "1,250"])) []
  = (Ok [ {| p_name := py "Angus"; p_price := py "1250"; p_brand := py "Makro" |} ],
     []) /\
  scrape_prices url_picanha
    (v_net (example_visit 404 [example_container "Angus" "1,250"])) []
  = (Ok [], [error_record url_picanha
               (py "404 Client Error:  for url: " ++ url_picanha)]).
Proof. repeat split; reflexivity. Qed.

(** ** The aggregator *)

Lemma lookup_add_to_group {K P} `{EqDecision K} (name : K) (price : P)
    (groups : list (K * list P)) (k : K) :
  lookup_group k (add_to_group name price groups)
  = if decide (k = name)
    then Some (default [] (lookup_group name groups) ++ [price])
    else lookup_group k groups.
Proof.
  induction groups as [|[k0 prices0] groups IH]; simpl.
  - repeat case_decide; congruence.
  - destruct (decide (k0 = name)) as [->|Hne]; simpl.
    + repeat case_decide; congruence.
    + rewrite IH. repeat case_decide; congruence.
Qed.

Lemma lookup_group_None {K P} `{EqDecision K} (groups : list (K * list P)) (k : K) :
  lookup_group k groups = None <-> k ∉ map fst groups.
Proof.
  induction groups as [|[k0 prices0] groups IH]; simpl.
  - split; [intros _; apply not_elem_of_nil|done].
  - rewrite not_elem_of_cons. case_decide as Hk.
    + split; [done|]. intros [Hne _]. congruence.
    + rewrite IH. split; [|tauto]. intros Hnot. split; [congruence|done].
Qed.

Lemma lookup_group_elem {K P} `{EqDecision K} (groups : list (K * list P)) (k : K)
    (prices : list P) :
  NoDup (map fst groups) ->
  (k, prices) ∈ groups <-> lookup_group k groups = Some prices.
Proof.
  induction groups as [|[k0 prices0] groups IH]; simpl.
  - intros _. split; [by intros ?%elem_of_nil|done].
  - intros [Hk0 Hnodup]%NoDup_cons. rewrite elem_of_cons, (IH Hnodup).
    case_decide as Hk; [subst k0|]; split.
    + intros [[= <-]|Hin]; [done|].
      apply lookup_group_None in Hk0. congruence.
    + intros [= <-]. by left.
    + intros [[= ? ?]|Hin]; [congruence|done].
    + by right.
Qed.

Lemma add_to_group_keys {K P} `{EqDecision K} (name : K) (price : P)
    (groups : list (K * list P)) :
  map fst (add_to_group name price groups)
  = match lookup_group name groups with
    | Some _ => map fst groups
    | None => map fst groups ++ [name]
    end.
Proof.
  induction groups as [|[k0 prices0] groups IH]; simpl; [done|].
  case_decide; simpl; [done|]. rewrite IH. by destruct (lookup_group name groups).
Qed.

Lemma fold_add_to_group_lookup {P} (df seen : list (row P))
    (groups : list (str * list P)) :
  NoDup (map fst groups) ->
  (forall k, lookup_group k groups
             = match filter (fun r => Name r = k) seen with
               | [] => None
               | rows => Some (map Price rows)
               end) ->
  NoDup (map fst (fold_left (fun groups r => add_to_group (Name r) (Price r) groups)
                            df groups)) /\
  forall k, lookup_group k (fold_left (fun groups r =>
                                         add_to_group (Name r) (Price r) groups)
                                      df groups)
            = match filter (fun r => Name r = k) (seen ++ df) with
              | [] => None
              | rows => Some (map Price rows)
              end.
Proof.
  revert seen groups.
  induction df as [|r df IH]; intros seen groups Hnodup Hlookup; simpl.
  - by rewrite app_nil_r.
  - replace (seen ++ r :: df) with ((seen ++ [r]) ++ df)
      by (by rewrite <- app_assoc).
    apply IH.
    + rewrite add_to_group_keys.
      destruct (lookup_group (Name r) groups) eqn:Hr; [done|].
      apply NoDup_app. split; [done|]. split; [|apply NoDup_singleton].
      intros k Hk ->%list_elem_of_singleton. by apply lookup_group_None in Hr.
    + intros k. rewrite lookup_add_to_group, filter_app, Hlookup.
      rewrite filter_cons, filter_nil.
      destruct (decide (k = Name r)) as [->|Hne].
      * destruct (decide (Name r = Name r)); [|done].
        destruct (filter _ seen); simpl; [done|]. by rewrite map_app.
      * destruct (decide (Name r = k)); [congruence|]. by rewrite app_nil_r.
Qed.

(** The groups of a pass over the rows: one per name, with the prices of
    the rows of that name in the order of the rows. *)
Lemma group_rows_lookup {P} (df : list (row P)) :
  NoDup (map fst (group_rows df)) /\
  forall k, lookup_group k (group_rows df)
            = match filter (fun r => Name r = k) df with
              | [] => None
              | rows => Some (map Price rows)
              end.
Proof.
  apply (fold_add_to_group_lookup df [] []); [constructor|done].
Qed.

Lemma group_rows_elem {P} (df : list (row P)) (k : str) (prices : list P) :
  (k, prices) ∈ group_rows df <->
  (exists r, r ∈ df /\ Name r = k) /\
  prices = map Price (filter (fun r => Name r = k) df).
Proof.
  destruct (group_rows_lookup df) as [Hnodup Hlookup].
  rewrite (lookup_group_elem _ _ _ Hnodup), Hlookup.
  destruct (filter (fun r => Name r = k) df) as [|r rows] eqn:Hrows; split.
  - done.
  - intros [(r & Hr & Hname) _].
    assert (r ∈ filter (fun r => Name r = k) df) as Hin
      by by apply list_elem_of_filter.
    rewrite Hrows in Hin. by apply elem_of_nil in Hin.
  - intros [= <-]. split; [|done]. exists r.
    assert (r ∈ filter (fun r => Name r = k) df) as Hin
      by (rewrite Hrows; apply list_elem_of_here).
    apply list_elem_of_filter in Hin. tauto.
  - by intros [_ ->].
Qed.

Lemma groupby_names {P} (df : list (row P)) :
  NoDup (map fst (groupby_Name_Price_list df)) /\
  Sorted (key_le id) (map fst (groupby_Name_Price_list df)) /\
  forall name, name ∈ map fst (groupby_Name_Price_list df)
               <-> exists r, r ∈ df /\ Name r = name.
Proof.
  unfold groupby_Name_Price_list. split; [|split].
  - rewrite (Permutation_map fst (sort_by_perm fst (group_rows df))).
    apply group_rows_lookup.
  - pose proof (sort_by_sorted fst (group_rows df)) as H.
    induction H as [|g gs _ IH Hhd]; simpl; constructor; [done|].
    destruct Hhd; simpl; by constructor.
  - intros name.
    rewrite (Permutation_map fst (sort_by_perm fst (group_rows df))).
    rewrite list_elem_of_In, in_map_iff. split.
    + intros ([k prices] & <- & Hin%list_elem_of_In%group_rows_elem). tauto.
    + intros Hr. eexists (name, _). split; [done|].
      apply list_elem_of_In, group_rows_elem. eauto.
Qed.

Lemma step_2_names {P} `{Repr P} (df : list (row P)) :
  map fst (step_2 df) = map fst (groupby_Name_Price_list df).
Proof. unfold step_2. rewrite map_map. done. Qed.

Lemma step_2_elem {P} `{Repr P} (df : list (row P)) (name prices : str) :
  (name, prices) ∈ step_2 df <->
  (exists r, r ∈ df /\ Name r = name) /\
  prices = str_list (map Price (filter (fun r => Name r = name) df)).
Proof.
  unfold step_2, groupby_Name_Price_list.
  rewrite list_elem_of_In, in_map_iff. split.
  - intros ([k ps] & [= <- <-] & Hin). simpl.
    apply list_elem_of_In in Hin. rewrite sort_by_perm in Hin.
    apply group_rows_elem in Hin as [Hr ->]. done.
  - intros [Hr ->]. eexists (name, _). split; [done|].
    apply list_elem_of_In. rewrite sort_by_perm. by apply group_rows_elem.
Qed.

(** *** The table read from the file *)

Lemma elem_of_map {A B} (f : A -> B) (l : list A) (b : B) :
  b ∈ map f l <-> exists a, f a = b /\ a ∈ l.
Proof.
  rewrite list_elem_of_In, in_map_iff.
  split; intros (a & Ha & Hin); exists a; by rewrite ?list_elem_of_In in *.
Qed.

Lemma for_each_Forall2 {A B} (f : A -> outcome B) (l : list A) (bs : list B) :
  for_each f l = Ok bs -> Forall2 (fun a b => f a = Ok b) l bs.
Proof.
  revert bs. induction l as [|a l IH]; intros bs; simpl.
  - intros [= <-]. constructor.
  - destruct (f a) as [b| |] eqn:Ha; simpl; try done.
    destruct (for_each f l) as [bs'| |]; simpl; try done.
    intros [= <-]. constructor; [done|]. by apply IH.
Qed.





Lemma zip_map {A B C} (f : A -> B) (g : A -> C) (l : list A) :
  zip (map f l) (map g l) = map (fun a => (f a, g a)) l.
Proof. induction l as [|a l IH]; [done|]. simpl. by rewrite IH. Qed.

Lemma insert_with_perm {A K} (le : K -> K -> bool) (key : A -> K) (a : A) (l : list A) :
  insert_with le key a l ≡ₚ a :: l.
Proof.
  induction l as [|b l IH]; simpl; [done|].
  destruct (le (key a) (key b)); [done|].
  rewrite IH. apply perm_swap.
Qed.

Lemma sort_with_perm {A K} (le : K -> K -> bool) (key : A -> K) (l : list A) :
  sort_with le key l ≡ₚ l.
Proof.
  induction l as [|a l IH]; simpl; [done|]. by rewrite insert_with_perm, IH.
Qed.

Lemma fold_add_to_group_pairs {K P} `{EqDecision K} (rows seen : list (K * P))
    (groups : list (K * list P)) :
  NoDup (map fst groups) ->
  (forall k, lookup_group k groups
             = match filter (fun r => fst r = k) seen with
               | [] => None
               | l => Some (map snd l)
               end) ->
  NoDup (map fst (fold_left (fun groups r => add_to_group (fst r) (snd r) groups)
                            rows groups)) /\
  forall k, lookup_group k (fold_left (fun groups r =>
                                         add_to_group (fst r) (snd r) groups)
                                      rows groups)
            = match filter (fun r => fst r = k) (seen ++ rows) with
              | [] => None
              | l => Some (map snd l)
              end.
Proof.
  revert seen groups.
  induction rows as [|r rows IH]; intros seen groups Hnodup Hlookup; simpl.
  - by rewrite app_nil_r.
  - replace (seen ++ r :: rows) with ((seen ++ [r]) ++ rows)
      by (by rewrite <- app_assoc).
    apply IH.
    + rewrite add_to_group_keys.
      destruct (lookup_group (fst r) groups) eqn:Hr; [done|].
      apply NoDup_app. split; [done|]. split; [|apply NoDup_singleton].
      intros k Hk ->%list_elem_of_singleton. by apply lookup_group_None in Hr.
    + intros k. rewrite lookup_add_to_group, filter_app, Hlookup.
      rewrite filter_cons, filter_nil.
      destruct (decide (k = fst r)) as [->|Hne].
      * destruct (decide (fst r = fst r)); [|done].
        destruct (filter _ seen); simpl; [done|]. by rewrite map_app.
      * destruct (decide (fst r = k)); [congruence|]. by rewrite app_nil_r.
Qed.

(** The groups of a pass over the rows: one per key, with the prices of
    the rows of that key in the order of the rows. *)
Lemma group_pairs_elem {K P} `{EqDecision K} (rows : list (K * P)) (k : K)
    (prices : list P) :
  NoDup (map fst (group_pairs rows)) /\
  ((k, prices) ∈ group_pairs rows <->
   (exists p, (k, p) ∈ rows) /\
   prices = map snd (filter (fun r => fst r = k) rows)).
Proof.
  destruct (fold_add_to_group_pairs rows [] []) as [Hnodup Hlookup];
    [constructor|done|].
  split; [done|]. unfold group_pairs.
  rewrite (lookup_group_elem _ _ _ Hnodup), Hlookup. cbn [app].
  destruct (filter (fun r => fst r = k) rows) as [|r l] eqn:Hrows; split.
  - done.
  - intros [(p & Hp) _].
    assert ((k, p) ∈ filter (fun r => fst r = k) rows) as Hin
      by by apply list_elem_of_filter.
    rewrite Hrows in Hin. by apply elem_of_nil in Hin.
  - intros [= <-]. split; [|done]. exists (snd r).
    assert (r ∈ filter (fun r => fst r = k) rows) as Hin
      by (rewrite Hrows; apply list_elem_of_here).
    apply list_elem_of_filter in Hin as [<- Hin]. by destruct r.
  - by intros [_ ->].
Qed.























(** ** The chart renderer: the filter *)

Lemma re_compile_literal (pat : str) :
  existsb is_special pat = false -> re_compile pat = Ok (map Char pat).
Proof.
  induction pat as [|c pat IH]; simpl; [done|].
  intros [Hc Hpat]%orb_false_iff.
  destruct (N.eqb_spec c 46) as [->|_]; [done|].
  rewrite Hc, (IH Hpat). done.
Qed.

Lemma re_match_literal (pat s : str) :
  re_match (map Char pat) s = startswith s pat.
Proof.
  revert s. induction pat as [|p pat IH]; intros [|c s]; simpl; try done.
  by rewrite IH.
Qed.

Lemma re_search_literal (pat s : str) :
  re_search (map Char pat) s = contains pat s.
Proof.
  induction s as [|c s IH]; simpl; rewrite re_match_literal; [done|].
  by rewrite IH.
Qed.

(** For a search string without special characters the filter keeps the
    rows whose name has it as a substring, and these only. *)
Lemma str_contains_filter_literal (search_string : str) (df : list (str * str)) :
  existsb is_special search_string = false ->
  str_contains_filter search_string df
  = Ok (filter (fun g => contains search_string (fst g) = true) df).
Proof.
  intros H. unfold str_contains_filter. rewrite (re_compile_literal _ H). simpl.
  f_equal. apply list_filter_iff. intros g. by rewrite re_search_literal.
Qed.

(** C6 at a search string with a dot.  The search string is read as a
    regular expression: "W.gyu" is no substring of "Wagyu Sirloin", and
    the row is selected and drawn all the same. *)
Theorem plot_graph_dot_is_a_wildcard :
  contains (py "W.gyu") (py "Wagyu Sirloin") = false /\
  str_contains_filter (py "W.gyu") example_aggregate
  = Ok [(py "Wagyu Sirloin", py "[1250, 1300]")] /\
  exists c,
    plot_graph [py "W.gyu"] example_aggregate [] = (Ok tt, [c]) /\
    map label (lines c) = [py "Wagyu Sirloin"].
Proof.
  split; [reflexivity|]. split; [reflexivity|].
  eexists. split; reflexivity.
Qed.

(** ** The gallery and the list of URLs *)

Lemma html_pieces_headings (directory : str) (files : list str) :
  filter (fun p => is_heading p = true)
    (concat (map (fun png_file =>
                    [Heading png_file; Image directory png_file; LineBreak]) files))
  = map Heading files /\
  filter (fun p => is_image p = true)
    (concat (map (fun png_file =>
                    [Heading png_file; Image directory png_file; LineBreak]) files))
  = map (Image directory) files.
Proof.
  induction files as [|f files [IH1 IH2]]; [done|].
  split; cbn [map concat app]; rewrite !filter_cons;
    repeat case_decide; try done; congruence.
Qed.

(** C8.  The page holds, between its head and its tail, one heading and
    one image reference for each entry of the directory whose name ends in
    ".png", in the order of the listing, and nothing for the other
    entries.  For a directory with a.png, b.png (and a file that is no
    PNG) the text has two headings and two image references. *)
Theorem create_html_one_entry_per_png (directory : str) (listdir : list str) :
  filter (fun p => is_heading p = true) (html_pieces directory listdir)
  = map Heading (png_files listdir) /\
  filter (fun p => is_image p = true) (html_pieces directory listdir)
  = map (Image directory) (png_files listdir) /\
  (forall file, file ∈ png_files listdir <->
                file ∈ listdir /\ endswith file (py ".png") = true) /\
  create_html_for_png_files directory listdir
  = html_head
    ++ concat (map (fun file => heading file ++ image directory file ++ line_break)
                   (png_files listdir))
    ++ html_tail /\
  png_files [py "a.png"; py "notes.txt"; py "b.png"] = [py "a.png"; py "b.png"] /\
  occurrences (py "<h2>")
    (create_html_for_png_files (py "results") [py "a.png"; py "notes.txt"; py "b.png"])
  = 2 /\
  occurrences (py "<img ")
    (create_html_for_png_files (py "results") [py "a.png"; py "notes.txt"; py "b.png"])
  = 2 /\
  occurrences (py "<h2>") (create_html_for_png_files (py "results") [py "a.png"; py "b.png"])
  = 2 /\
  occurrences (py "<img ") (create_html_for_png_files (py "results") [py "a.png"; py "b.png"])
  = 2.
Proof.
  destruct (html_pieces_headings directory (png_files listdir)) as [H1 H2].
  split; [|split; [|split; [|split]]].
  - unfold html_pieces. rewrite !filter_app, H1. apply app_nil_r.
  - unfold html_pieces. rewrite !filter_app, H2. apply app_nil_r.
  - intros file. unfold png_files. rewrite list_elem_of_filter. tauto.
  - unfold create_html_for_png_files, html_pieces.
    rewrite !map_app, !concat_app.
    change (concat (map render [Head])) with (html_head ++ []).
    change (concat (map render [Tail])) with (html_tail ++ []).
    rewrite !app_nil_r. f_equal. f_equal. clear H1 H2.
    induction (png_files listdir) as [|f l IH]; [done|].
    cbn [map concat app render]. rewrite IH. by rewrite <- !app_assoc.
  - repeat split; vm_compute; reflexivity.
Qed.

(** C10.  The list [urls] has five elements where the comments name six
    searches: its last element is the fifth and the sixth URL in one
    string, and the sixth URL is no element of it (nor is the fifth). *)
Theorem urls_has_five_elements :
  length urls = 5 /\
  length searches_named = 6 /\
  take 4 urls = take 4 searches_named /\
  last urls = Some (url_beef_ribeye ++ url_probutcher_chuck) /\
  (url_probutcher_chuck ∉ urls) /\
  (url_beef_ribeye ∉ urls).
Proof.
  repeat split; try reflexivity.
  - intros H%(bool_decide_pack _). by vm_compute in H.
  - intros H%(bool_decide_pack _). by vm_compute in H.
Qed.

(** ** Strings: strip and split *)






Lemma split_no_sep (sep : N) (s : str) :
  existsb (fun c => (c =? sep)%N) s = false -> split sep s = [s].
Proof.
  induction s as [|c s IH]; simpl; [done|].
  intros [Hc Hs]%orb_false_iff. by rewrite Hc, (IH Hs).
Qed.




Lemma for_each_map {A B C} (f : B -> outcome C) (g : A -> B) (h : A -> C)
    (l : list A) :
  Forall (fun a => f (g a) = Ok (h a)) l ->
  for_each f (map g l) = Ok (map h l).
Proof.
  induction 1 as [|a l Ha Hl IH]; simpl; [done|].
  rewrite Ha. simpl. rewrite IH. done.
Qed.

(** ** Numbers: what is printed is read back *)













(** ** The chart renderer: the prices read back *)




(** *** A list with a string in it is not read back *)














Lemma str_of_list_ints (ns : list Z) : str_of_list (map PyInt ns) = Ok (str_list ns).
Proof.
  unfold str_of_list, str_list.
  rewrite (for_each_map repr_scalar PyInt repr_Z); [done|].
  by apply Forall_forall.
Qed.

(** Names that are all numerals are integers for pandas, and sorted as
    integers; next to a name that is text they are strings, and sorted as
    strings. *)
Lemma step_2_of_file_numeral_names :
  step_2_of_file [Header; Data (example_row "9" "1" "2024-05-01");
                  Data (example_row "10" "2" "2024-05-01")]
  = Ok [(py "9", py "[1]"); (py "10", py "[2]")] /\
  step_2_of_file [Header; Data (example_row "9" "1" "2024-05-01");
                  Data (example_row "10" "2" "2024-05-01");
                  Data (example_row "Beef" "3" "2024-05-01")]
  = Ok [(py "10", py "[2]"); (py "9", py "[1]"); (py "Beef", py "[3]")].
Proof. split; reflexivity. Qed.

(** *** The floats of the integers *)








(** *** The prices of a ledger, read back *)












(** *** The table of strings and integers *)

Lemma add_to_group_table (name : str) (price : Z) (groups : list (str * list Z)) :
  add_to_group (PyStr name) (PyInt price)
    (map (fun g => (PyStr (fst g), map PyInt (snd g))) groups)
  = map (fun g => (PyStr (fst g), map PyInt (snd g))) (add_to_group name price groups).
Proof.
  induction groups as [|[k ps] groups IH]; [done|]. cbn [map add_to_group fst snd].
  destruct (decide (k = name)) as [->|Hne].
  - destruct (decide (PyStr name = PyStr name)); [|done].
    cbn [map fst snd]. by rewrite map_app.
  - destruct (decide (PyStr k = PyStr name)); [congruence|].
    cbn [map fst snd]. by rewrite IH.
Qed.

Lemma group_pairs_table (df : list (row Z)) (groups : list (str * list Z)) :
  fold_left (fun groups r => add_to_group (fst r) (snd r) groups)
    (map (fun r => (PyStr (Name r), PyInt (Price r))) df)
    (map (fun g => (PyStr (fst g), map PyInt (snd g))) groups)
  = map (fun g => (PyStr (fst g), map PyInt (snd g)))
        (fold_left (fun groups r => add_to_group (Name r) (Price r) groups) df groups).
Proof.
  revert groups. induction df as [|r df IH]; intros groups; [done|].
  cbn [map fold_left fst snd]. by rewrite add_to_group_table, IH.
Qed.

Lemma sort_with_table (groups : list (str * list Z)) :
  sort_with scalar_le fst (map (fun g => (PyStr (fst g), map PyInt (snd g))) groups)
  = map (fun g => (PyStr (fst g), map PyInt (snd g))) (sort_by fst groups).
Proof.
  induction groups as [|g groups IH]; [done|]. cbn [map sort_with sort_by].
  rewrite IH. generalize (sort_by fst groups). intros sorted.
  induction sorted as [|g' sorted IHs]; [done|].
  cbn [map insert_with insert_by fst scalar_le].
  destruct (str_le (fst g) (fst g')); [done|]. cbn [map]. by rewrite IHs.
Qed.

(** On a table whose names are strings, none missing, and whose prices are
    integers, [step_2_frame] is [step_2]. *)
Lemma step_2_frame_table (df : list (row Z)) :
  step_2_frame (frame_of_table df) = Ok (step_2 df).
Proof.
  unfold step_2_frame, groupby_apply_list, frame_rows, frame_of_table.
  cbn [Name_column Price_column tolist]. rewrite !map_map, zip_map.
  assert (dropna (map (fun r => (PyStr (Name r), PyInt (Price r))) df)
          = map (fun r => (PyStr (Name r), PyInt (Price r))) df) as ->.
  { unfold dropna. induction df as [|r df IH]; [done|].
    cbn [map]. rewrite filter_cons. cbn [fst].
    destruct (decide (PyStr (Name r) <> PyNaN)) as [_|Hn]; [|by destruct Hn].
    by rewrite IH. }
  unfold group_pairs. pose proof (group_pairs_table df []) as Hgroups.
  cbn [map] in Hgroups. rewrite Hgroups, sort_with_table.
  unfold step_2, groupby_Name_Price_list, group_rows.
  apply for_each_map, Forall_forall. intros [k ps] _. cbn [fst snd].
  by rewrite str_of_list_ints.
Qed.

(** A list of strings is written with quotes, and is not read back. *)
Lemma parse_prices_of_strings :
  parse_prices (py "['12.5 THB', '13']") = Raise (could_not_convert (py "'12.5 THB'")).
Proof. reflexivity. Qed.

(** ** Prices with commas *)



(** * Further properties of the code *)

(** ** The fetcher *)

Lemma lstrip_by_head (drop : N -> bool) (s : str) (c : N) :
  head (lstrip_by drop s) = Some c -> drop c = false.
Proof.
  induction s as [|x s IH]; simpl; [done|].
  destruct (drop x) eqn:Hx; [done|]. by intros [= <-].
Qed.

Lemma rstrip_by_head (drop : N -> bool) (s : str) (c : N) :
  head (rstrip_by drop s) = Some c -> head s = Some c.
Proof.
  destruct s as [|x s]; simpl; [done|].
  destruct (rstrip_by drop s); [by destruct (drop x)|done].
Qed.

Lemma rstrip_by_last (drop : N -> bool) (s : str) (c : N) :
  last (rstrip_by drop s) = Some c -> drop c = false.
Proof.
  induction s as [|x s IH]; simpl; [done|].
  destruct (rstrip_by drop s) as [|y t] eqn:Ht.
  - destruct (drop x) eqn:Hx; [done|]. by intros [= <-].
  - intros H. apply IH. by rewrite <- H.
Qed.

Lemma strip_no_outer_space (s : str) : no_outer_space (strip s).
Proof.
  unfold strip, strip_by. split; intros c Hc.
  - by apply rstrip_by_head, lstrip_by_head in Hc.
  - by apply rstrip_by_last in Hc.
Qed.

(** X1.  The name and the brand of a fetched row have no whitespace at
    either end, whatever the text of the elements. *)
Theorem scrape_product_stripped (c : container) (p : product) :
  scrape_product c = Ok p ->
  no_outer_space (p_name p) /\ no_outer_space (p_brand p).
Proof.
  destruct c as [[name|] [price|] [brand|]]; simpl; try done.
  intros [= <-]. simpl. split; apply strip_no_outer_space.
Qed.

Lemma scrape_product_stripped_witness :
  scrape_product (example_container "  Angus  Beef " "1,250")
  = Ok {| p_name := py "Angus  Beef"; p_price := py "1250"; p_brand := py "Makro" |} /\
  no_outer_space (py "Angus  Beef") /\ no_outer_space (py "Makro").
Proof.
  split; [reflexivity|].
  apply (scrape_product_stripped (example_container "  Angus  Beef " "1,250")
           {| p_name := py "Angus  Beef"; p_price := py "1250"; p_brand := py "Makro" |}).
  reflexivity.
Defined.

(** ** The ledger writer *)

Lemma scrape_products_incomplete (cs : list container) :
  Exists (fun c => ~ complete c) cs ->
  exists msg, for_each scrape_product cs = Raise (AttributeError msg).
Proof.
  induction cs as [|c cs IH]; intros H; [by apply Exists_nil in H|].
  apply Exists_cons in H.
  destruct c as [[name|] [price|] [brand|]]; simpl; try by eexists.
  destruct H as [H|H].
  - destruct H. unfold complete. simpl. eauto.
  - destruct (IH H) as [msg ->]. simpl. by eexists.
Qed.

Lemma raise_for_status_passes (r : response) :
  ~ (400 <= status_code r < 600)%Z -> raise_for_status r = Ok tt.
Proof.
  intros H. unfold raise_for_status.
  destruct (Z.leb_spec 400 (status_code r)), (Z.ltb_spec (status_code r) 500),
    (Z.leb_spec 500 (status_code r)), (Z.ltb_spec (status_code r) 600);
    simpl; try done; lia.
Qed.

Lemma consolidate_app (before after : list visit) (data : list (row str))
    (log : list log_record) :
  consolidate (before ++ after) data log
  = match consolidate before data log with
    | (Ok data', log') => consolidate after data' log'
    | other => other
    end.
Proof.
  revert data log. induction before as [|v before IH]; intros data log; simpl.
  - done.
  - destruct (scrape_prices (v_url v) (v_net v) log) as [[rows|e|] log']; try done.
Qed.

(** X2.  One container that lacks an element aborts the run: the
    AttributeError leaves [scrape_prices] uncaught and [step_1] writes
    nothing; the rows of the pages fetched before are not written
    either. *)
Theorem step_1_missing_element (before after : list visit) (v : visit)
    (r : response) (fs : files) :
  Forall (fun v => answered (v_net v)) before ->
  v_net v = GetReturns r ->
  ~ (400 <= status_code r < 600)%Z ->
  Exists (fun c => ~ complete c) (products r) ->
  exists msg fs',
    step_1 (before ++ v :: after) fs = (Raise (AttributeError msg), fs') /\
    product_price_csv fs' = product_price_csv fs.
Proof.
  intros Hbefore Hv Hstatus Hmissing.
  destruct (consolidate_returns before [] (scraper_log fs) Hbefore)
    as (data & log & Hdata).
  destruct (scrape_products_incomplete _ Hmissing) as [msg Hmsg].
  exists msg. unfold step_1. rewrite consolidate_app, Hdata. simpl.
  unfold scrape_prices, scrape_prices_try. rewrite Hv. simpl.
  rewrite (raise_for_status_passes r Hstatus). simpl. rewrite Hmsg.
  by eexists.
Qed.

Lemma step_1_missing_element_witness :
  Forall (fun v => answered (v_net v)) example_visits /\
  v_net example_visit_missing = GetReturns example_page_missing /\
  ~ (400 <= status_code example_page_missing < 600)%Z /\
  Exists (fun c => ~ complete c) (products example_page_missing) /\
  exists msg fs',
    step_1 (example_visits ++ example_visit_missing :: [example_no_connection])
      example_files
    = (Raise (AttributeError msg), fs') /\
    product_price_csv fs' = product_price_csv example_files.
Proof.
  assert (Forall (fun v => answered (v_net v)) example_visits) as H1.
  { repeat constructor; simpl; eauto. }
  assert (~ (400 <= status_code example_page_missing < 600)%Z) as H2
    by (simpl; lia).
  assert (Exists (fun c => ~ complete c) (products example_page_missing)) as H3.
  { apply Exists_cons_tl, Exists_cons_hd. intros (_ & [x Hx] & _). discriminate. }
  split; [exact H1|]. split; [reflexivity|]. split; [exact H2|]. split; [exact H3|].
  apply (step_1_missing_element example_visits [example_no_connection]
           example_visit_missing example_page_missing example_files);
    [exact H1|reflexivity|exact H2|exact H3].
Defined.

Lemma consolidate_log (visits : list visit) (data data' : list (row str))
    (log log' : list log_record) :
  consolidate visits data log = (Ok data', log') ->
  exists msgs,
    length msgs = length (filter (fun v => request_failed (v_net v)) visits) /\
    log' = log ++ error_records
                    (map v_url (filter (fun v => request_failed (v_net v)) visits))
                    msgs.
Proof.
  revert data log. induction visits as [|v visits IH]; intros data log; simpl.
  - intros [= _ <-]. exists []. by rewrite app_nil_r.
  - rewrite filter_cons.
    destruct (decide (request_failed (v_net v))) as [Hfailed|Hnot].
    + destruct (scrape_prices_request_failed (v_url v) _ log Hfailed) as [msg ->].
      intros (msgs & Hlen & ->)%IH. exists (msg :: msgs). simpl.
      split; [by rewrite Hlen|]. by rewrite <- app_assoc.
    + pose proof (scrape_prices_log_unchanged (v_url v) _ log Hnot) as Hlog.
      destruct (scrape_prices (v_url v) (v_net v) log) as [[rows|e|] l];
        simpl in Hlog; subst l; try done.
      apply IH.
Qed.

(** X3.  A run that ends well has added to the log one ERROR record per
    request that failed, in the order of the URLs and naming the URL, and
    nothing else. *)
Theorem step_1_log_records (visits : list visit) (fs fs' : files) :
  step_1 visits fs = (Ok tt, fs') ->
  exists msgs,
    length msgs = length (filter (fun v => request_failed (v_net v)) visits) /\
    scraper_log fs'
    = scraper_log fs
      ++ error_records (map v_url (filter (fun v => request_failed (v_net v)) visits))
           msgs.
Proof.
  intros (data & Hdata & _)%step_1_Ok. by apply consolidate_log in Hdata.
Qed.

Lemma step_1_log_records_witness :
  step_1 [example_not_found; example_visit 200 []; example_no_connection] no_files
  = (Ok tt, {| results_dir := true; product_price_csv := [Header];
               scraper_log :=
                 [error_record url_picanha
                    (py "404 Client Error:  for url: " ++ url_picanha);
                  error_record url_ribeye (py "Connection refused")] |}) /\
  exists msgs,
    length msgs
    = length (filter (fun v => request_failed (v_net v))
                [example_not_found; example_visit 200 []; example_no_connection]) /\
    scraper_log {| results_dir := true; product_price_csv := [Header];
                   scraper_log :=
                     [error_record url_picanha
                        (py "404 Client Error:  for url: " ++ url_picanha);
                      error_record url_ribeye (py "Connection refused")] |}
    = scraper_log no_files
      ++ error_records
           (map v_url (filter (fun v => request_failed (v_net v))
                         [example_not_found; example_visit 200 [];
                          example_no_connection]))
           msgs.
Proof.
  split; [reflexivity|].
  apply (step_1_log_records
           [example_not_found; example_visit 200 []; example_no_connection] no_files).
  reflexivity.
Defined.

Lemma consolidate_all_failed (visits : list visit) (data : list (row str))
    (log : list log_record) :
  Forall (fun v => request_failed (v_net v)) visits ->
  exists log', consolidate visits data log = (Ok data, log') /\
               length log' = length log + length visits.
Proof.
  intros H. revert log. induction H as [|v visits Hv _ IH]; intros log.
  - exists log. simpl. split; [done|lia].
  - destruct (consolidate_request_failed v visits data log Hv) as [msg ->].
    destruct (IH (log ++ [error_record (v_url v) msg])) as (log' & -> & Hlen).
    exists log'. split; [done|]. rewrite Hlen, length_app. simpl. lia.
Qed.

(** X4.  When every request fails the run still ends well: each URL gets
    its record in the log, a ledger that has content is left as it is and
    an empty (or absent) one receives the header alone. *)
Theorem step_1_all_requests_failed (visits : list visit) (fs : files) :
  Forall (fun v => request_failed (v_net v)) visits ->
  exists fs',
    step_1 visits fs = (Ok tt, fs') /\
    product_price_csv fs'
    = (if decide (product_price_csv fs = []) then [Header] else product_price_csv fs) /\
    length (scraper_log fs') = length (scraper_log fs) + length visits.
Proof.
  intros H.
  destruct (consolidate_all_failed visits [] (scraper_log fs) H) as (log & Hlog & Hlen).
  unfold step_1. rewrite Hlog. eexists. split; [done|]. simpl. split; [|done].
  unfold to_csv_append. change (map Data (sort_values (drop_duplicates []))) with
    ([] : list csv_line).
  destruct (decide (product_price_csv fs = [])) as [->|]; [done|].
  by rewrite !app_nil_r.
Qed.

Lemma step_1_all_requests_failed_witness :
  Forall (fun v => request_failed (v_net v)) [example_not_found; example_no_connection] /\
  exists fs',
    step_1 [example_not_found; example_no_connection] example_files = (Ok tt, fs') /\
    product_price_csv fs'
    = (if decide (product_price_csv example_files = []) then [Header]
       else product_price_csv example_files) /\
    length (scraper_log fs')
    = length (scraper_log example_files)
      + length [example_not_found; example_no_connection].
Proof.
  assert (Forall (fun v => request_failed (v_net v))
            [example_not_found; example_no_connection]) as H.
  { repeat constructor; simpl; lia. }
  split; [exact H|].
  apply (step_1_all_requests_failed [example_not_found; example_no_connection]
           example_files H).
Defined.

Lemma for_each_Ok_elem {A B} (f : A -> outcome B) (l : list A) (bs : list B) :
  for_each f l = Ok bs ->
  forall b, b ∈ bs <-> exists a, a ∈ l /\ f a = Ok b.
Proof.
  revert bs. induction l as [|a l IH]; intros bs; simpl.
  - intros [= <-] b. split; [by intros ?%elem_of_nil|].
    by intros (a & ?%elem_of_nil & _).
  - destruct (f a) as [b0| |] eqn:Ha; simpl; try done.
    destruct (for_each f l) as [bs0| |]; simpl; try done.
    intros [= <-] b. rewrite elem_of_cons, (IH bs0 eq_refl). split.
    + intros [->|(a' & Ha' & Hb)].
      * exists a. split; [apply list_elem_of_here|done].
      * exists a'. split; [by apply list_elem_of_further|done].
    + intros (a' & [->|Ha']%elem_of_cons & Hb).
      * left. congruence.
      * right. by exists a'.
Qed.

Lemma scrape_prices_rows (url : str) (net : http_result) (log log' : list log_record)
    (rows : list product) :
  scrape_prices url net log = (Ok rows, log') ->
  forall p, p ∈ rows <->
            exists page c, net = GetReturns page /\
                           ~ (400 <= status_code page < 600)%Z /\
                           c ∈ products page /\ scrape_product c = Ok p.
Proof.
  intros H p.
  destruct (decide (request_failed net)) as [Hfailed|Hnot].
  - destruct (scrape_prices_request_failed url net log Hfailed) as [msg Hmsg].
    rewrite Hmsg in H. injection H as <- _. split; [by intros ?%elem_of_nil|].
    intros (page & c & -> & Hstatus & _). by destruct Hstatus.
  - destruct net as [e|page]; simpl in Hnot.
    + unfold scrape_prices in H. simpl in H. by destruct e.
    + unfold scrape_prices, scrape_prices_try in H. simpl in H.
      rewrite (raise_for_status_passes page Hnot) in H. simpl in H.
      destruct (for_each scrape_product (products page)) as [rows'|e|] eqn:Hrows;
        [|by destruct (scrape_products_raises _ _ Hrows) as [msg ->]|done].
      injection H as <- _. rewrite (for_each_Ok_elem _ _ _ Hrows). split.
      * intros (c & Hc & Hp). by exists page, c.
      * intros (page' & c & [= <-] & _ & Hc & Hp). by exists c.
Qed.

Lemma consolidate_rows (visits : list visit) (data data' : list (row str))
    (log log' : list log_record) :
  consolidate visits data log = (Ok data', log') ->
  forall r, r ∈ data' <-> r ∈ data \/ fetched_from visits r.
Proof.
  revert data log. induction visits as [|v visits IH]; intros data log; simpl.
  - intros [= <- _] r. split; [by left|]. intros [H|(v & ? & ? & ? & Hv & _)]; [done|].
    by apply elem_of_nil in Hv.
  - destruct (scrape_prices (v_url v) (v_net v) log) as [[rows|e|] l] eqn:Hrows;
      try done.
    intros H r. rewrite (IH _ _ H), elem_of_app, elem_of_map.
    pose proof (scrape_prices_rows _ _ _ _ _ Hrows) as Hp. split.
    + intros [[Hr|(p & <- & Hin)]|(v' & page & c & p & Hv' & Hrest)].
      * by left.
      * right. apply Hp in Hin as (page & c & Hnet & Hst & Hc & Hsp).
        exists v, page, c, p. split; [apply list_elem_of_here|done].
      * right. exists v', page, c, p. split; [by apply list_elem_of_further|done].
    + intros [Hr|(v' & page & c & p & [->|Hv']%elem_of_cons & Hnet & Hst & Hc & Hsp & ->)].
      * by left; left.
      * left; right. exists p. split; [done|].
        apply Hp. by exists page, c.
      * right. by exists v', page, c, p.
Qed.

(** X5.  The rows a run adds to the ledger are the rows of the containers
    of the pages that came back without an error status, each with the
    date taken after its own page; no other row is added and none of
    these is left out. *)
Theorem step_1_rows_written (visits : list visit) (fs fs' : files) :
  step_1 visits fs = (Ok tt, fs') ->
  exists added,
    data_rows (product_price_csv fs') = data_rows (product_price_csv fs) ++ added /\
    forall r, r ∈ added <-> fetched_from visits r.
Proof.
  intros (data & Hdata & _ & Hcsv)%step_1_Ok. exists (batch data).
  rewrite Hcsv, data_rows_to_csv_append. split; [done|].
  intros r. rewrite batch_elem, (consolidate_rows _ _ _ _ _ Hdata).
  split; [|by right]. intros [?%elem_of_nil|H]; done.
Qed.

Lemma step_1_rows_written_witness :
  step_1 example_visits example_files = (Ok tt, example_files_after) /\
  exists added,
    data_rows (product_price_csv example_files_after)
    = data_rows (product_price_csv example_files) ++ added /\
    forall r, r ∈ added <-> fetched_from example_visits r.
Proof.
  split; [reflexivity|].
  apply (step_1_rows_written example_visits example_files example_files_after).
  reflexivity.
Defined.

(** X6.  A ledger that is empty or has its header on top and data rows
    below stays so under [step_1], however the run ends; after a run that
    ends well the file is not empty, so it has exactly one header, on
    top. *)
Theorem step_1_header_first (visits : list visit) (fs fs' : files)
    (out : outcome unit) :
  step_1 visits fs = (out, fs') ->
  header_first (product_price_csv fs) ->
  header_first (product_price_csv fs') /\
  (out = Ok tt -> exists rows, product_price_csv fs' = Header :: map Data rows).
Proof.
  unfold step_1.
  destruct (consolidate visits [] (scraper_log fs)) as [[data|e|] log];
    intros [= <- <-] Hold; simpl; [|done..].
  assert (exists rows, to_csv_append (product_price_csv fs)
                         (sort_values (drop_duplicates data))
                       = Header :: map Data rows) as Hnew.
  { unfold to_csv_append. destruct Hold as [->|[rows ->]]; simpl.
    - by eexists.
    - exists (rows ++ sort_values (drop_duplicates data)). by rewrite map_app. }
  split; [by right|done].
Qed.

Lemma step_1_header_first_witness :
  step_1 example_visits example_files = (Ok tt, example_files_after) /\
  header_first (product_price_csv example_files) /\
  header_first (product_price_csv example_files_after) /\
  (Ok tt = Ok tt ->
   exists rows, product_price_csv example_files_after = Header :: map Data rows).
Proof.
  assert (header_first (product_price_csv example_files)) as H.
  { right. by exists [example_row "Beef" "250" "2024-05-01"]. }
  split; [reflexivity|]. split; [exact H|].
  apply (step_1_header_first example_visits example_files example_files_after (Ok tt));
    [reflexivity|exact H].
Defined.

Lemma consolidate_log_grows (visits : list visit) (data : list (row str))
    (log : list log_record) :
  exists added,
    snd (consolidate visits data log) = log ++ added /\
    Forall (fun r => levelname r = ERROR) added /\
    length added <= length visits.
Proof.
  revert data log. induction visits as [|v visits IH]; intros data log; simpl.
  - exists []. rewrite app_nil_r. split; [done|]. split; [constructor|simpl; lia].
  - assert (exists one, snd (scrape_prices (v_url v) (v_net v) log) = log ++ one /\
                        Forall (fun r => levelname r = ERROR) one /\
                        length one <= 1) as (one & Hone & Herr & Hlen).
    { destruct (decide (request_failed (v_net v))) as [Hfailed|Hnot].
      - destruct (scrape_prices_request_failed (v_url v) _ log Hfailed) as [msg ->].
        eexists. split; [done|]. split; [by repeat constructor|simpl; lia].
      - exists []. rewrite scrape_prices_log_unchanged, app_nil_r by done.
        split; [done|]. split; [constructor|simpl; lia]. }
    destruct (scrape_prices (v_url v) (v_net v) log) as [[rows|e|] l];
      simpl in Hone; subst l.
    + destruct (IH (data ++ map (with_date (v_today v)) rows) (log ++ one))
        as (added & -> & Hadded & Hle).
      exists (one ++ added). rewrite app_assoc. split; [done|].
      split; [by apply Forall_app|]. rewrite length_app. lia.
    + exists one. simpl. split; [done|]. split; [done|lia].
    + exists one. simpl. split; [done|]. split; [done|lia].
Qed.

(** X7.  However a run ends, with an exception too, it only appends to the
    log: the records that were there stay, in their place, and what is
    added are ERROR records, at most one per URL. *)
Theorem step_1_log_append_only (visits : list visit) (fs : files) :
  exists added,
    scraper_log (snd (step_1 visits fs)) = scraper_log fs ++ added /\
    Forall (fun r => levelname r = ERROR) added /\
    length added <= length visits.
Proof.
  destruct (consolidate_log_grows visits [] (scraper_log fs))
    as (added & Hlog & Herr & Hlen).
  exists added. unfold step_1.
  destruct (consolidate visits [] (scraper_log fs)) as [[data|e|] log];
    simpl in *; by subst.
Qed.

(** ** The aggregator *)

Lemma concat_perm {A} (l l' : list (list A)) : l ≡ₚ l' -> concat l ≡ₚ concat l'.
Proof.
  induction 1 as [|x l l' _ IH|x y l|l l' l'' _ IH1 _ IH2]; simpl.
  - done.
  - by rewrite IH.
  - rewrite !app_assoc. by rewrite (Permutation_app_comm y x).
  - by rewrite IH1.
Qed.

Lemma concat_add_to_group {K P} `{EqDecision K} (name : K) (price : P)
    (groups : list (K * list P)) :
  concat (map snd (add_to_group name price groups))
  ≡ₚ concat (map snd groups) ++ [price].
Proof.
  induction groups as [|[k prices] groups IH]; simpl; [done|].
  destruct (decide (k = name)); simpl.
  - rewrite <- !app_assoc. apply Permutation_app_head, Permutation_app_comm.
  - by rewrite IH, app_assoc.
Qed.

Lemma concat_fold_add_to_group {K P} `{EqDecision K} (rows : list (K * P))
    (groups : list (K * list P)) :
  concat (map snd (fold_left (fun groups r => add_to_group (fst r) (snd r) groups)
                             rows groups))
  ≡ₚ concat (map snd groups) ++ map snd rows.
Proof.
  revert groups. induction rows as [|r rows IH]; intros groups; simpl.
  - by rewrite app_nil_r.
  - rewrite IH, concat_add_to_group, <- app_assoc. done.
Qed.

(** X8.  The aggregation loses no price of a row that has a name and
    invents none: the prices of all the groups together are the prices of
    the rows of the table whose name is not missing, each as many times as
    it occurs there; no group is empty.  The rows whose name is missing,
    and they alone, are left out with their prices. *)
Theorem step_2_keeps_prices_of_named_rows (df : DataFrame) :
  concat (map snd (groupby_apply_list df)) ≡ₚ map snd (dropna (frame_rows df)) /\
  Forall (fun g => snd g <> []) (groupby_apply_list df) /\
  (forall name price, (name, price) ∈ dropna (frame_rows df) <->
                      (name, price) ∈ frame_rows df /\ name <> PyNaN).
Proof.
  unfold groupby_apply_list. split; [|split].
  - rewrite (concat_perm _ _ (Permutation_map snd (sort_with_perm scalar_le fst _))).
    apply (concat_fold_add_to_group (dropna (frame_rows df)) []).
  - rewrite sort_with_perm. apply Forall_forall. intros [k prices] Hin.
    apply group_pairs_elem in Hin as [(p & Hp) ->]. simpl.
    assert ((k, p) ∈ filter (fun r => fst r = k) (dropna (frame_rows df))) as Hin
      by by apply list_elem_of_filter.
    destruct (filter _ (dropna (frame_rows df))); [by apply elem_of_nil in Hin|done].
  - intros name price. unfold dropna. rewrite list_elem_of_filter. simpl. tauto.
Qed.

Lemma group_rows_columns {P} (df : list (row P)) (groups : list (str * list P)) :
  fold_left (fun groups r => add_to_group (Name r) (Price r) groups) df groups
  = fold_left (fun groups np => add_to_group (fst np) (snd np) groups)
              (map (fun r => (Name r, Price r)) df) groups.
Proof.
  revert groups. induction df as [|r df IH]; intros groups; simpl; [done|].
  apply IH.
Qed.

(** X9.  The aggregate depends on the Name and Price columns alone: two
    ledgers with the same names and prices, row by row, give the same
    aggregate whatever their brands and dates.  The order of the prices
    of a product is the order of the rows, not that of the dates. *)
Theorem step_2_ignores_brand_and_date {P} `{Repr P} (df1 df2 : list (row P)) :
  map (fun r => (Name r, Price r)) df1 = map (fun r => (Name r, Price r)) df2 ->
  step_2 df1 = step_2 df2.
Proof.
  intros Hcols. unfold step_2, groupby_Name_Price_list, group_rows.
  by rewrite !group_rows_columns, Hcols.
Qed.

Lemma step_2_ignores_brand_and_date_witness :
  map (fun r => (Name r, Price r)) example_ledger
  = map (fun r => (Name r, Price r))
      [ {| Name := py "A"; Price := 10%Z; Brand := py "aro"; Date := py "2024-06-02" |};
        {| Name := py "A"; Price := 20%Z; Brand := py ""; Date := py "2024-06-01" |};
        {| Name := py "B"; Price := 5%Z; Brand := py "Makro"; Date := py "" |} ] /\
  step_2 example_ledger
  = step_2
      [ {| Name := py "A"; Price := 10%Z; Brand := py "aro"; Date := py "2024-06-02" |};
        {| Name := py "A"; Price := 20%Z; Brand := py ""; Date := py "2024-06-01" |};
        {| Name := py "B"; Price := 5%Z; Brand := py "Makro"; Date := py "" |} ].
Proof.
  split; [reflexivity|].
  apply (step_2_ignores_brand_and_date example_ledger). reflexivity.
Defined.



(** ** The chart renderer *)

Lemma split_pieces_no_sep (sep : N) (s : str) :
  Forall (fun piece => existsb (fun c => c =? sep)%N piece = false) (split sep s).
Proof.
  induction s as [|c s IH]; simpl; [by repeat constructor|].
  destruct (c =? sep)%N eqn:Hc; [by constructor|].
  destruct (split sep s) as [|piece rest]; [by repeat constructor; simpl; rewrite Hc|].
  apply Forall_cons in IH as [Hpiece Hrest].
  constructor; [|done]. simpl. by rewrite Hc.
Qed.

Lemma for_each_ext {A B} (f g : A -> outcome B) (l : list A) :
  Forall (fun a => f a = g a) l -> for_each f l = for_each g l.
Proof.
  induction 1 as [|a l Ha _ IH]; simpl; [done|]. by rewrite Ha, IH.
Qed.

(** X11.  Joining the pieces of a piece between its commas changes
    nothing, since a piece cut at the commas has none: the Prices text is
    read as its pieces between commas, each through [float] as it is.  A
    thousands separator inside a number is never removed at this stage; it
    cuts the number in two. *)
Theorem parse_prices_join_is_identity (x : str) :
  parse_prices x = for_each float (split 44 (strip_chars (py "[]") x)).
Proof.
  unfold parse_prices. apply for_each_ext.
  eapply Forall_impl; [apply split_pieces_no_sep|].
  intros piece Hpiece. simpl. by rewrite split_no_sep.
Qed.

Lemma for_each_length {A B} (f : A -> outcome B) (l : list A) (bs : list B) :
  for_each f l = Ok bs -> length bs = length l.
Proof.
  revert bs. induction l as [|a l IH]; intros bs; simpl; [by intros [= <-]|].
  destruct (f a); simpl; try done.
  destruct (for_each f l) as [bs'| |]; simpl; try done.
  intros [= <-]. simpl. by rewrite (IH bs').
Qed.

Lemma split_length (sep : N) (s : str) :
  length (split sep s) = S (count_occ N.eq_dec s sep).
Proof.
  induction s as [|c s IH]; simpl; [done|].
  destruct (N.eqb_spec c sep) as [->|Hne].
  - destruct (N.eq_dec sep sep); [|done]. simpl. by rewrite IH.
  - destruct (N.eq_dec c sep); [done|].
    destruct (split sep s); simpl in *; [done|]. by rewrite <- IH.
Qed.

(** X12.  When the Prices text is read, it gives one number more than it
    has commas between its brackets: never an empty list (the text "[]"
    raises), and two numbers for a price written with a comma. *)
Theorem parse_prices_length (x : str) (prices : list pyfloat) :
  parse_prices x = Ok prices ->
  length prices = S (count_occ N.eq_dec (strip_chars (py "[]") x) 44%N) /\
  prices <> [].
Proof.
  intros H%for_each_length. rewrite split_length in H. split; [done|].
  by destruct prices.
Qed.

Lemma parse_prices_length_witness :
  parse_prices (py "[1,250, 900]")
  = Ok [float_of_Z 1; float_of_Z 250; float_of_Z 900] /\
  length [float_of_Z 1; float_of_Z 250; float_of_Z 900]
  = S (count_occ N.eq_dec (strip_chars (py "[]") (py "[1,250, 900]")) 44%N) /\
  [float_of_Z 1; float_of_Z 250; float_of_Z 900] <> [].
Proof.
  split; [reflexivity|].
  apply (parse_prices_length (py "[1,250, 900]")). reflexivity.
Defined.

Lemma plot_one_Ok (search_string : str) (df : list (str * str)) (c : chart) :
  plot_one search_string df = Ok c ->
  exists rows prices,
    str_contains_filter search_string df = Ok rows /\
    for_each (fun g => ps ← parse_prices (snd g); Ok (fst g, ps)) rows = Ok prices /\
    c = {| title := plot_title search_string;
           lines := map (fun ig => {| label := fst (snd ig);
                                      ydata := snd (snd ig);
                                      color := (fst ig mod num_colors)%nat |})
                        (enumerate 0 prices);
           savefig := plot_path search_string |}.
Proof.
  unfold plot_one.
  destruct (str_contains_filter search_string df) as [rows| |]; simpl; try done.
  destruct (for_each _ rows) as [prices| |] eqn:Hprices; simpl; try done.
  destruct (is_file_name _); [|done].
  intros [= <-]. by exists rows, prices.
Qed.

Lemma plot_graph_app (ss1 ss2 : list str) (df : list (str * str)) (saved : list chart) :
  plot_graph (ss1 ++ ss2) df saved
  = match plot_graph ss1 df saved with
    | (Ok _, saved') => plot_graph ss2 df saved'
    | other => other
    end.
Proof.
  revert saved. induction ss1 as [|s ss1 IH]; intros saved; simpl; [done|].
  destruct (plot_one s df); [apply IH|done..].
Qed.

Lemma plot_graph_all_Ok (ss : list str) (df : list (str * str))
    (saved charts : list chart) :
  Forall2 (fun s c => plot_one s df = Ok c) ss charts ->
  plot_graph ss df saved = (Ok tt, saved ++ charts).
Proof.
  intros H. revert saved. induction H as [|s c ss charts Hc _ IH]; intros saved; simpl.
  - by rewrite app_nil_r.
  - rewrite Hc, IH, <- app_assoc. done.
Qed.

Lemma plot_graph_Ok (ss : list str) (df : list (str * str))
    (saved saved' : list chart) :
  plot_graph ss df saved = (Ok tt, saved') ->
  exists charts,
    Forall2 (fun s c => plot_one s df = Ok c) ss charts /\ saved' = saved ++ charts.
Proof.
  revert saved. induction ss as [|s ss IH]; intros saved; simpl.
  - intros [= <-]. exists []. split; [constructor|by rewrite app_nil_r].
  - destruct (plot_one s df) as [c| |] eqn:Hc; try done.
    intros (charts & Hcharts & ->)%IH. exists (c :: charts).
    split; [by constructor|by rewrite <- app_assoc].
Qed.

(** X13.  A call that ends well has saved one chart per search string, in
    their order, after those saved before: each under the path
    results/<search string>_plot.png and with the search string in its
    title. *)
Theorem plot_graph_one_chart_per_filter (search_strings : list str)
    (df : list (str * str)) (saved saved' : list chart) :
  plot_graph search_strings df saved = (Ok tt, saved') ->
  exists charts,
    saved' = saved ++ charts /\
    map savefig charts = map plot_path search_strings /\
    map title charts = map plot_title search_strings.
Proof.
  intros (charts & Hcharts & ->)%plot_graph_Ok. exists charts. split; [done|].
  induction Hcharts as [|s c ss charts Hc _ [IH1 IH2]]; [done|].
  apply plot_one_Ok in Hc as (rows & prices & _ & _ & ->). simpl.
  by rewrite IH1, IH2.
Qed.

Lemma plot_graph_one_chart_per_filter_witness :
  plot_graph [py "Wagyu"] example_bad_aggregate [] = (Ok tt, [example_wagyu_chart]) /\
  exists charts,
    [example_wagyu_chart] = [] ++ charts /\
    map savefig charts = map plot_path [py "Wagyu"] /\
    map title charts = map plot_title [py "Wagyu"].
Proof.
  split; [reflexivity|].
  apply (plot_graph_one_chart_per_filter [py "Wagyu"] example_bad_aggregate []).
  reflexivity.
Defined.

(** X14.  The first search string whose chart cannot be made ends the
    call with its exception: the charts of the search strings before it
    are saved, none is made for those after it. *)
Theorem plot_graph_stops_at_first_failure (before after : list str) (s : str)
    (df : list (str * str)) (saved charts : list chart) (e : exn) :
  Forall2 (fun s c => plot_one s df = Ok c) before charts ->
  plot_one s df = Raise e ->
  plot_graph (before ++ s :: after) df saved = (Raise e, saved ++ charts).
Proof.
  intros Hbefore Hs.
  rewrite plot_graph_app, (plot_graph_all_Ok _ _ _ _ Hbefore). simpl.
  by rewrite Hs.
Qed.

Lemma plot_graph_stops_at_first_failure_witness :
  Forall2 (fun s c => plot_one s example_bad_aggregate = Ok c)
    [py "Wagyu"] [example_wagyu_chart] /\
  plot_one (py "Pork") example_bad_aggregate = Raise (could_not_convert (py "'N/A'")) /\
  plot_graph ([py "Wagyu"] ++ py "Pork" :: [py "Sirloin"]) example_bad_aggregate []
  = (Raise (could_not_convert (py "'N/A'")), [] ++ [example_wagyu_chart]).
Proof.
  assert (Forall2 (fun s c => plot_one s example_bad_aggregate = Ok c)
            [py "Wagyu"] [example_wagyu_chart]) as H
    by (repeat constructor).
  split; [exact H|]. split; [reflexivity|].
  apply (plot_graph_stops_at_first_failure [py "Wagyu"] [py "Sirloin"] (py "Pork")
           example_bad_aggregate [] [example_wagyu_chart]
           (could_not_convert (py "'N/A'")) H).
  reflexivity.
Defined.

Lemma filter_none {A} (P : A -> Prop) `{forall a, Decision (P a)} (l : list A) :
  Forall (fun a => ~ P a) l -> filter P l = [].
Proof.
  induction 1 as [|a l Ha _ IH]; [done|].
  rewrite filter_cons. by destruct (decide (P a)).
Qed.

(** X15.  A search string without special characters and without a
    slash (one that makes a file name of the directory results) that no
    name contains still gets its chart: one without lines, under the usual
    path and title. *)
Theorem plot_one_no_match (search_string : str) (df : list (str * str)) :
  existsb is_special search_string = false ->
  is_file_name (search_string ++ py "_plot.png") = true ->
  Forall (fun g => contains search_string (fst g) = false) df ->
  plot_one search_string df
  = Ok {| title := plot_title search_string; lines := [];
          savefig := plot_path search_string |}.
Proof.
  intros Hliteral Hname Hnone. unfold plot_one.
  rewrite (str_contains_filter_literal _ _ Hliteral), filter_none.
  - cbn [mbind outcome_bind for_each]. by rewrite Hname.
  - eapply Forall_impl; [exact Hnone|]. intros g Hg. simpl in Hg. congruence.
Qed.

Lemma plot_one_no_match_witness :
  existsb is_special (py "Ribeye") = false /\
  is_file_name (py "Ribeye" ++ py "_plot.png") = true /\
  Forall (fun g => contains (py "Ribeye") (fst g) = false) example_aggregate /\
  plot_one (py "Ribeye") example_aggregate
  = Ok {| title := plot_title (py "Ribeye"); lines := [];
          savefig := plot_path (py "Ribeye") |}.
Proof.
  assert (Forall (fun g => contains (py "Ribeye") (fst g) = false) example_aggregate)
    as H by (repeat constructor).
  split; [reflexivity|]. split; [reflexivity|]. split; [exact H|].
  apply (plot_one_no_match (py "Ribeye") example_aggregate);
    [reflexivity|reflexivity|exact H].
Defined.

Lemma enumerate_lookup {A} (l : list A) (start i n : nat) (a : A) :
  enumerate start l !! i = Some (n, a) -> n = (start + i)%nat /\ l !! i = Some a.
Proof.
  revert start i. induction l as [|x l IH]; intros start i; simpl; [done|].
  destruct i as [|i]; simpl.
  - intros [= <- <-]. split; [lia|done].
  - intros [-> Ha]%IH. split; [lia|done].
Qed.

Lemma enumerate_length {A} (l : list A) (start : nat) :
  length (enumerate start l) = length l.
Proof. revert start. induction l; intros start; simpl; [done|]. by f_equal. Qed.

(** X16.  The chart of a search string has one line per row the filter
    kept, in the order of the table: the i-th line is labelled with the
    name of the i-th kept row, carries the numbers read from its Prices
    text, and has the colour i modulo 20, so that the 21st line has the
    colour of the first. *)
Theorem plot_one_lines (search_string : str) (df : list (str * str)) (c : chart) :
  plot_one search_string df = Ok c ->
  exists rows,
    str_contains_filter search_string df = Ok rows /\
    length (lines c) = length rows /\
    forall i g, rows !! i = Some g ->
      exists prices,
        parse_prices (snd g) = Ok prices /\
        lines c !! i = Some {| label := fst g; ydata := prices;
                               color := (i mod 20)%nat |}.
Proof.
  intros (rows & prices & Hrows & Hprices & ->)%plot_one_Ok.
  exists rows. split; [done|]. simpl.
  apply for_each_Forall2 in Hprices.
  split.
  { rewrite length_map, enumerate_length. symmetry. by eapply Forall2_length. }
  intros i g Hg.
  destruct (Forall2_lookup_l _ _ _ _ _ Hprices Hg) as ([name ps] & Hps & Hparse).
  destruct (parse_prices (snd g)) as [ps'| |]; simpl in Hparse; try done.
  injection Hparse as <- <-. exists ps'. split; [done|].
  assert (exists n, enumerate 0 prices !! i = Some (n, (fst g, ps'))) as [n Hn].
  { clear -Hps. generalize 0%nat. revert i Hps.
    induction prices as [|p prices IH]; intros i Hps start; [done|].
    destruct i as [|i]; simpl in *.
    - injection Hps as ->. by eexists.
    - by apply IH. }
  pose proof (enumerate_lookup _ _ _ _ _ Hn) as [-> _].
  change (map ?f ?l) with (f <$> l). rewrite list_lookup_fmap, Hn. done.
Qed.

Lemma plot_one_lines_witness :
  plot_one (py "Wagyu") example_bad_aggregate = Ok example_wagyu_chart /\
  exists rows,
    str_contains_filter (py "Wagyu") example_bad_aggregate = Ok rows /\
    length (lines example_wagyu_chart) = length rows /\
    forall i g, rows !! i = Some g ->
      exists prices,
        parse_prices (snd g) = Ok prices /\
        lines example_wagyu_chart !! i
        = Some {| label := fst g; ydata := prices; color := (i mod 20)%nat |}.
Proof.
  split; [reflexivity|].
  apply (plot_one_lines (py "Wagyu") example_bad_aggregate). reflexivity.
Defined.

Lemma re_match_self (s t : str) (atoms : list atom) :
  re_compile s = Ok atoms -> re_match atoms (s ++ t) = true.
Proof.
  revert atoms. induction s as [|c s IH]; intros atoms; simpl.
  - by intros [= <-].
  - destruct (N.eqb_spec c 46) as [->|Hdot].
    + destruct (re_compile s) as [atoms'| |]; simpl; try done.
      intros [= <-]. simpl. by apply IH.
    + destruct (is_special c); [done|].
      destruct (re_compile s) as [atoms'| |]; simpl; try done.
      intros [= <-]. simpl. rewrite N.eqb_refl. by apply IH.
Qed.

Lemma re_search_app (atoms : list atom) (before s : str) :
  re_match atoms s = true -> re_search atoms (before ++ s) = true.
Proof.
  intros H. induction before as [|c before IH]; simpl.
  - destruct s; simpl; by rewrite H.
  - rewrite IH. apply orb_true_r.
Qed.

(** X17.  Reading the search string as a regular expression never loses a
    row: whenever the filter returns (a search string of ordinary
    characters and dots), every row whose name contains the search string
    as it is written is among the rows kept. *)
Theorem str_contains_filter_keeps_literal_matches (search_string : str)
    (df rows : list (str * str)) (g : str * str) :
  str_contains_filter search_string df = Ok rows ->
  g ∈ df -> contains search_string (fst g) = true -> g ∈ rows.
Proof.
  unfold str_contains_filter.
  destruct (re_compile search_string) as [atoms| |] eqn:Hatoms; simpl; try done.
  intros [= <-] Hg (before & after & Hname)%contains_spec.
  apply list_elem_of_filter. split; [|done].
  rewrite Hname. apply re_search_app. by apply re_match_self.
Qed.

Lemma str_contains_filter_keeps_literal_matches_witness :
  str_contains_filter (py "1.5 kg")
    [(py "Rib 1.5 kg", py "[900]"); (py "Rib 125 kg", py "[950]"); (py "Rib", py "[1]")]
  = Ok [(py "Rib 1.5 kg", py "[900]"); (py "Rib 125 kg", py "[950]")] /\
  ((py "Rib 1.5 kg", py "[900]")
   ∈ [(py "Rib 1.5 kg", py "[900]"); (py "Rib 125 kg", py "[950]"); (py "Rib", py "[1]")]) /\
  contains (py "1.5 kg") (fst (py "Rib 1.5 kg", py "[900]")) = true /\
  ((py "Rib 1.5 kg", py "[900]")
   ∈ [(py "Rib 1.5 kg", py "[900]"); (py "Rib 125 kg", py "[950]")]).
Proof.
  split; [reflexivity|]. split; [apply list_elem_of_here|]. split; [reflexivity|].
  apply (str_contains_filter_keeps_literal_matches (py "1.5 kg")
           [(py "Rib 1.5 kg", py "[900]"); (py "Rib 125 kg", py "[950]");
            (py "Rib", py "[1]")]);
    [reflexivity|apply list_elem_of_here|reflexivity].
Defined.

(** X18.  None of the five search strings of the entry point has a
    character that is special in a regular expression: for them the filter
    is the plain test for a substring, on every table. *)
Theorem search_str_filters_are_literal (search_string : str) (df : list (str * str)) :
  search_string ∈ search_str ->
  str_contains_filter search_string df
  = Ok (filter (fun g => contains search_string (fst g) = true) df).
Proof.
  intros H. apply str_contains_filter_literal.
  unfold search_str in H.
  repeat (apply elem_of_cons in H as [->|H]; [reflexivity|]).
  by apply elem_of_nil in H.
Qed.

Lemma search_str_filters_are_literal_witness :
  ([3626; 3633; 3609; 3588; 3629]%N ∈ search_str) /\
  str_contains_filter [3626; 3633; 3609; 3588; 3629]%N example_aggregate
  = Ok (filter (fun g => contains [3626; 3633; 3609; 3588; 3629]%N (fst g) = true)
          example_aggregate).
Proof.
  assert ([3626; 3633; 3609; 3588; 3629]%N ∈ search_str) as H
    by apply list_elem_of_further, list_elem_of_here.
  split; [exact H|].
  apply (search_str_filters_are_literal _ example_aggregate H).
Defined.

(** ** The gallery builder *)

Lemma endswith_spec (s suffix : str) :
  endswith s suffix = true <-> exists stem, s = stem ++ suffix.
Proof.
  unfold endswith. rewrite startswith_spec. split.
  - intros [t Ht]. exists (rev t).
    apply (f_equal (@rev N)) in Ht. by rewrite rev_involutive, rev_app_distr,
      rev_involutive in Ht.
  - intros [stem ->]. exists (rev stem). by rewrite rev_app_distr.
Qed.

Lemma png_files_idemp (listdir : list str) :
  png_files (png_files listdir) = png_files listdir.
Proof.
  unfold png_files. induction listdir as [|f l IH]; [done|].
  rewrite filter_cons. destruct (decide _) as [Hf|Hf]; [|done].
  rewrite filter_cons. destruct (decide _); [|done]. by rewrite IH.
Qed.

(** X19.  The gallery lists the entries of the directory whose name is a
    stem, possibly empty, followed by ".png" in lower case, and these
    only, in the order of the listing (a listing read in two parts gives
    the two results one after the other); the page is the same as for the
    directory without its other entries. *)
Theorem png_files_spec (directory : str) (listdir listdir' : list str) (file : str) :
  (file ∈ png_files listdir <->
   file ∈ listdir /\ exists stem, file = stem ++ py ".png") /\
  png_files (listdir ++ listdir') = png_files listdir ++ png_files listdir' /\
  create_html_for_png_files directory listdir
  = create_html_for_png_files directory (png_files listdir).
Proof.
  split; [|split].
  - unfold png_files. rewrite list_elem_of_filter, endswith_spec. tauto.
  - apply filter_app.
  - unfold create_html_for_png_files, html_pieces. by rewrite png_files_idemp.
Qed.
